(** * ntris: the gameplay core (piece.c, board.c, game.c) as Rocq functions

    The C code is embedded shallowly.  A C [int] is a [Z]; the embedding is
    exact wherever the C arithmetic does not overflow (signed overflow is
    undefined in C, so there is no wrap-around to model).  A C [double] is a
    binary64 [float].  The board [int cells[20][10]] is a list of rows, each a
    list of cells; [wf_board] says the list has the dimensions of the C array.
    Calls to [rand()] take the value returned as an extra argument.  The two
    loops without a syntactic bound (the row scan of [board_clear_lines] and
    the descent of [game_hard_drop]) take a [fuel] argument and answer [None]
    when it runs out. *)

From Stdlib Require Import ZArith List Bool Lia Floats Uint63.
From stdpp Require Import base list.

#[local] Set Warnings "-inexact-float".
#[local] Open Scope Z_scope.

(** ** piece.h / piece.c *)

Inductive PieceType : Set :=
  | PIECE_I | PIECE_O | PIECE_T | PIECE_S | PIECE_Z | PIECE_J | PIECE_L.

Definition PIECE_COUNT : Z := 7.

Inductive RotationState : Set := ROT_0 | ROT_90 | ROT_180 | ROT_270.

(** [int cells[4][2]]: four blocks, each an (x, y) offset. *)
Abbreviation PieceShape := (list (Z * Z)).

Definition I_SHAPES (r : RotationState) : PieceShape :=
  match r with
  | ROT_0 => [(0, 1); (1, 1); (2, 1); (3, 1)]
  | ROT_90 => [(2, 0); (2, 1); (2, 2); (2, 3)]
  | ROT_180 => [(0, 2); (1, 2); (2, 2); (3, 2)]
  | ROT_270 => [(1, 0); (1, 1); (1, 2); (1, 3)]
  end.

Definition O_SHAPES (r : RotationState) : PieceShape :=
  match r with
  | ROT_0 => [(1, 0); (2, 0); (1, 1); (2, 1)]
  | ROT_90 => [(1, 0); (2, 0); (1, 1); (2, 1)]
  | ROT_180 => [(1, 0); (2, 0); (1, 1); (2, 1)]
  | ROT_270 => [(1, 0); (2, 0); (1, 1); (2, 1)]
  end.

Definition T_SHAPES (r : RotationState) : PieceShape :=
  match r with
  | ROT_0 => [(1, 0); (0, 1); (1, 1); (2, 1)]
  | ROT_90 => [(1, 0); (1, 1); (2, 1); (1, 2)]
  | ROT_180 => [(0, 1); (1, 1); (2, 1); (1, 2)]
  | ROT_270 => [(1, 0); (0, 1); (1, 1); (1, 2)]
  end.

Definition S_SHAPES (r : RotationState) : PieceShape :=
  match r with
  | ROT_0 => [(1, 0); (2, 0); (0, 1); (1, 1)]
  | ROT_90 => [(1, 0); (1, 1); (2, 1); (2, 2)]
  | ROT_180 => [(1, 1); (2, 1); (0, 2); (1, 2)]
  | ROT_270 => [(0, 0); (0, 1); (1, 1); (1, 2)]
  end.

Definition Z_SHAPES (r : RotationState) : PieceShape :=
  match r with
  | ROT_0 => [(0, 0); (1, 0); (1, 1); (2, 1)]
  | ROT_90 => [(2, 0); (1, 1); (2, 1); (1, 2)]
  | ROT_180 => [(0, 1); (1, 1); (1, 2); (2, 2)]
  | ROT_270 => [(1, 0); (0, 1); (1, 1); (0, 2)]
  end.

Definition J_SHAPES (r : RotationState) : PieceShape :=
  match r with
  | ROT_0 => [(0, 0); (0, 1); (1, 1); (2, 1)]
  | ROT_90 => [(1, 0); (2, 0); (1, 1); (1, 2)]
  | ROT_180 => [(0, 1); (1, 1); (2, 1); (2, 2)]
  | ROT_270 => [(1, 0); (1, 1); (0, 2); (1, 2)]
  end.

Definition L_SHAPES (r : RotationState) : PieceShape :=
  match r with
  | ROT_0 => [(2, 0); (0, 1); (1, 1); (2, 1)]
  | ROT_90 => [(1, 0); (1, 1); (1, 2); (2, 2)]
  | ROT_180 => [(0, 1); (1, 1); (2, 1); (0, 2)]
  | ROT_270 => [(0, 0); (1, 0); (1, 1); (1, 2)]
  end.

(** [ROTATION_TABLES[type][rotation]].  The C function answers NULL for a
    value outside the two enumerations; the inductive types have no such
    value. *)
Definition piece_get_shape (type : PieceType) (rotation : RotationState)
  : PieceShape :=
  match type with
  | PIECE_I => I_SHAPES rotation
  | PIECE_O => O_SHAPES rotation
  | PIECE_T => T_SHAPES rotation
  | PIECE_S => S_SHAPES rotation
  | PIECE_Z => Z_SHAPES rotation
  | PIECE_J => J_SHAPES rotation
  | PIECE_L => L_SHAPES rotation
  end.

(** [PIECE_COLORS[type]] *)
Definition piece_get_color (type : PieceType) : Z :=
  match type with
  | PIECE_I => 1
  | PIECE_O => 2
  | PIECE_T => 3
  | PIECE_S => 4
  | PIECE_Z => 5
  | PIECE_J => 6
  | PIECE_L => 7
  end.

Definition rotation_to_int (r : RotationState) : Z :=
  match r with ROT_0 => 0 | ROT_90 => 1 | ROT_180 => 2 | ROT_270 => 3 end.

Definition rotation_of_int (z : Z) : RotationState :=
  match z with 1 => ROT_90 | 2 => ROT_180 | 3 => ROT_270 | _ => ROT_0 end.

(** [(RotationState)((current + 1) % 4)] *)
Definition piece_rotate_cw (current : RotationState) : RotationState :=
  rotation_of_int (Z.rem (rotation_to_int current + 1) 4).

(** [(PieceType)(rand() % PIECE_COUNT)], [r] being what [rand()] returned
    (never negative). *)
Definition piece_of_rand (r : nat) : PieceType :=
  match Z.rem (Z.of_nat r) PIECE_COUNT with
  | 0 => PIECE_I
  | 1 => PIECE_O
  | 2 => PIECE_T
  | 3 => PIECE_S
  | 4 => PIECE_Z
  | 5 => PIECE_J
  | _ => PIECE_L
  end.

(** ** board.h / board.c *)

Definition BOARD_WIDTH : Z := 10.
Definition BOARD_HEIGHT : Z := 20.

(** [int cells[BOARD_HEIGHT][BOARD_WIDTH]], row by row from the top. *)
Abbreviation Board := (list (list Z)).

Definition wf_board (b : Board) : Prop :=
  length b = Z.to_nat BOARD_HEIGHT /\
  Forall (fun row => length row = Z.to_nat BOARD_WIDTH) b.

(** [board->cells[y][x]] read.  The C code only reads with both indices
    checked to be in range. *)
Definition cells_get (b : Board) (y x : Z) : Z :=
  match b !! Z.to_nat y with
  | Some row => default 0 (row !! Z.to_nat x)
  | None => 0
  end.

(** [board->cells[y][x] = v], again only used with indices in range. *)
Definition cells_set (b : Board) (y x v : Z) : Board :=
  match b !! Z.to_nat y with
  | Some row => <[Z.to_nat y := <[Z.to_nat x := v]> row]> b
  | None => b
  end.

(** [memset(board->cells, 0, sizeof(board->cells))] *)
Definition board_init : Board :=
  replicate (Z.to_nat BOARD_HEIGHT) (replicate (Z.to_nat BOARD_WIDTH) 0).

(** The body of the [for (i = 0; i < 4; i++)] loop of
    [board_check_collision], over the blocks still to visit. *)
Fixpoint check_blocks (b : Board) (x y : Z) (blocks : PieceShape) : bool :=
  match blocks with
  | [] => false
  | (dx, dy) :: rest =>
      let block_x := x + dx in
      let block_y := y + dy in
      if (block_x <? 0) || (block_x >=? BOARD_WIDTH) then true
      else if block_y >=? BOARD_HEIGHT then true
      else if block_y <? 0 then check_blocks b x y rest
      else if negb (cells_get b block_y block_x =? 0) then true
      else check_blocks b x y rest
  end.

Definition board_check_collision (b : Board) (type : PieceType)
    (rotation : RotationState) (x y : Z) : bool :=
  check_blocks b x y (piece_get_shape type rotation).

(** The loop of [board_lock_piece]. *)
Fixpoint lock_blocks (b : Board) (color x y : Z) (blocks : PieceShape) : Board :=
  match blocks with
  | [] => b
  | (dx, dy) :: rest =>
      let block_x := x + dx in
      let block_y := y + dy in
      if (block_x >=? 0) && (block_x <? BOARD_WIDTH) &&
         (block_y >=? 0) && (block_y <? BOARD_HEIGHT)
      then lock_blocks (cells_set b block_y block_x color) color x y rest
      else lock_blocks b color x y rest
  end.

Definition board_lock_piece (b : Board) (type : PieceType)
    (rotation : RotationState) (x y : Z) : Board :=
  lock_blocks b (piece_get_color type) x y (piece_get_shape type rotation).

(** The columns [0 .. BOARD_WIDTH-1] in the order the [for x] loops visit
    them. *)
Definition columns : list Z := seqZ 0 BOARD_WIDTH.

(** The inner scan of [board_clear_lines]: [line_full] stays true unless a
    cell of row [y] is 0. *)
Definition line_full (b : Board) (y : Z) : bool :=
  forallb (fun x => negb (cells_get b y x =? 0)) columns.

(** [for x: cells[shift_y][x] = cells[shift_y - 1][x]] *)
Definition copy_row_down (b : Board) (shift_y : Z) : Board :=
  fold_left (fun b' x => cells_set b' shift_y x (cells_get b' (shift_y - 1) x))
            columns b.

(** [for (shift_y = y; shift_y > 0; shift_y--)], on the counter [shift_y]. *)
Fixpoint shift_rows_down (b : Board) (shift_y : nat) : Board :=
  match shift_y with
  | O => b
  | S k => shift_rows_down (copy_row_down b (Z.of_nat (S k))) k
  end.

(** [for x: cells[0][x] = 0] *)
Definition clear_top_row (b : Board) : Board :=
  fold_left (fun b' x => cells_set b' 0 x 0) columns b.

(** The outer [for (y = BOARD_HEIGHT - 1; y >= 0; y--)] loop.  After a full
    row the body does [y++], which the loop's [y--] undoes: the same index
    is scanned again. *)
Fixpoint clear_lines_loop (fuel : nat) (b : Board) (y lines_cleared : Z)
  : option (Z * Board) :=
  if y >=? 0 then
    match fuel with
    | O => None
    | S fuel' =>
        if line_full b y then
          clear_lines_loop fuel'
            (clear_top_row (shift_rows_down b (Z.to_nat y)))
            (y + 1 - 1) (lines_cleared + 1)
        else clear_lines_loop fuel' b (y - 1) lines_cleared
    end
  else Some (lines_cleared, b).

(** Returns the count and the board as the C function leaves it. *)
Definition board_clear_lines (fuel : nat) (b : Board) : option (Z * Board) :=
  clear_lines_loop fuel b (BOARD_HEIGHT - 1) 0.

Definition board_get_cell (b : Board) (x y : Z) : Z :=
  if (x <? 0) || (x >=? BOARD_WIDTH) || (y <? 0) || (y >=? BOARD_HEIGHT)
  then 0
  else cells_get b y x.

(** The two nested loops of [board_is_spawn_blocked] visit (x, y) in the
    order x outer, y inner, and stop at the first occupied cell. *)
Definition board_is_spawn_blocked (b : Board) : bool :=
  let spawn_x := Z.quot BOARD_WIDTH 2 - 1 in
  let spawn_y := 0 in
  existsb (fun x =>
    existsb (fun y =>
      (x >=? 0) && (x <? BOARD_WIDTH) && (y >=? 0) && (y <? BOARD_HEIGHT) &&
      negb (cells_get b y x =? 0))
      (seqZ spawn_y 2))
    (seqZ spawn_x 2).

(** ** game.h / game.c *)

Definition SPAWN_X : Z := 3.
Definition SPAWN_Y : Z := 0.
Definition LOCK_DELAY : float := 0.5%float.
Definition LINES_PER_LEVEL : Z := 10.

Definition WALL_KICK_OFFSETS : list (Z * Z) :=
  [(0, 0); (-1, 0); (1, 0); (0, -1); (-2, 0); (2, 0)].
Definition WALL_KICK_COUNT : nat := 6.

(** [LINE_CLEAR_SCORES[lines]]; C reads past the table for [lines > 4], the
    model answers 0 there. *)
Definition LINE_CLEAR_SCORES (lines : Z) : Z :=
  nth (Z.to_nat lines) [0; 100; 300; 500; 800] 0.

Inductive GameState : Set :=
  | GAME_STATE_START_SCREEN
  | GAME_STATE_PLAYING
  | GAME_STATE_PAUSED
  | GAME_STATE_GAME_OVER.

Definition GameState_eqb (a b : GameState) : bool :=
  match a, b with
  | GAME_STATE_START_SCREEN, GAME_STATE_START_SCREEN
  | GAME_STATE_PLAYING, GAME_STATE_PLAYING
  | GAME_STATE_PAUSED, GAME_STATE_PAUSED
  | GAME_STATE_GAME_OVER, GAME_STATE_GAME_OVER => true
  | _, _ => false
  end.

Record Game : Type := mkGame {
  board : Board;
  state : GameState;
  current_piece : PieceType;
  current_rotation : RotationState;
  piece_x : Z;
  piece_y : Z;
  next_piece : PieceType;
  score : Z;
  level : Z;
  lines_cleared : Z;
  gravity_timer : float;
  lock_delay_timer : float;
  is_on_ground : bool
}.

(** Field assignments [game->f = v]. *)
Definition set_board (g : Game) (v : Board) : Game :=
  mkGame v (state g) (current_piece g) (current_rotation g) (piece_x g)
    (piece_y g) (next_piece g) (score g) (level g) (lines_cleared g)
    (gravity_timer g) (lock_delay_timer g) (is_on_ground g).
Definition set_state (g : Game) (v : GameState) : Game :=
  mkGame (board g) v (current_piece g) (current_rotation g) (piece_x g)
    (piece_y g) (next_piece g) (score g) (level g) (lines_cleared g)
    (gravity_timer g) (lock_delay_timer g) (is_on_ground g).
Definition set_current_piece (g : Game) (v : PieceType) : Game :=
  mkGame (board g) (state g) v (current_rotation g) (piece_x g)
    (piece_y g) (next_piece g) (score g) (level g) (lines_cleared g)
    (gravity_timer g) (lock_delay_timer g) (is_on_ground g).
Definition set_current_rotation (g : Game) (v : RotationState) : Game :=
  mkGame (board g) (state g) (current_piece g) v (piece_x g)
    (piece_y g) (next_piece g) (score g) (level g) (lines_cleared g)
    (gravity_timer g) (lock_delay_timer g) (is_on_ground g).
Definition set_piece_x (g : Game) (v : Z) : Game :=
  mkGame (board g) (state g) (current_piece g) (current_rotation g) v
    (piece_y g) (next_piece g) (score g) (level g) (lines_cleared g)
    (gravity_timer g) (lock_delay_timer g) (is_on_ground g).
Definition set_piece_y (g : Game) (v : Z) : Game :=
  mkGame (board g) (state g) (current_piece g) (current_rotation g) (piece_x g)
    v (next_piece g) (score g) (level g) (lines_cleared g)
    (gravity_timer g) (lock_delay_timer g) (is_on_ground g).
Definition set_next_piece (g : Game) (v : PieceType) : Game :=
  mkGame (board g) (state g) (current_piece g) (current_rotation g) (piece_x g)
    (piece_y g) v (score g) (level g) (lines_cleared g)
    (gravity_timer g) (lock_delay_timer g) (is_on_ground g).
Definition set_score (g : Game) (v : Z) : Game :=
  mkGame (board g) (state g) (current_piece g) (current_rotation g) (piece_x g)
    (piece_y g) (next_piece g) v (level g) (lines_cleared g)
    (gravity_timer g) (lock_delay_timer g) (is_on_ground g).
Definition set_level (g : Game) (v : Z) : Game :=
  mkGame (board g) (state g) (current_piece g) (current_rotation g) (piece_x g)
    (piece_y g) (next_piece g) (score g) v (lines_cleared g)
    (gravity_timer g) (lock_delay_timer g) (is_on_ground g).
Definition set_lines_cleared (g : Game) (v : Z) : Game :=
  mkGame (board g) (state g) (current_piece g) (current_rotation g) (piece_x g)
    (piece_y g) (next_piece g) (score g) (level g) v
    (gravity_timer g) (lock_delay_timer g) (is_on_ground g).
Definition set_gravity_timer (g : Game) (v : float) : Game :=
  mkGame (board g) (state g) (current_piece g) (current_rotation g) (piece_x g)
    (piece_y g) (next_piece g) (score g) (level g) (lines_cleared g)
    v (lock_delay_timer g) (is_on_ground g).
Definition set_lock_delay_timer (g : Game) (v : float) : Game :=
  mkGame (board g) (state g) (current_piece g) (current_rotation g) (piece_x g)
    (piece_y g) (next_piece g) (score g) (level g) (lines_cleared g)
    (gravity_timer g) v (is_on_ground g).
Definition set_is_on_ground (g : Game) (v : bool) : Game :=
  mkGame (board g) (state g) (current_piece g) (current_rotation g) (piece_x g)
    (piece_y g) (next_piece g) (score g) (level g) (lines_cleared g)
    (gravity_timer g) (lock_delay_timer g) v.

(** The conversion of an [int] to [double] (exact for every 32-bit int). *)
Definition double_of_int (z : Z) : float :=
  if z <? 0 then PrimFloat.opp (PrimFloat.of_uint63 (Uint63.of_Z (- z)))
  else PrimFloat.of_uint63 (Uint63.of_Z z).

(** [r1], [r2]: the two values [rand()] returns. *)
Definition game_init (r1 r2 : nat) : Game :=
  {| board := board_init;
     state := GAME_STATE_START_SCREEN;
     score := 0;
     level := 1;
     lines_cleared := 0;
     gravity_timer := 0.0%float;
     lock_delay_timer := 0.0%float;
     is_on_ground := false;
     current_piece := piece_of_rand r1;
     next_piece := piece_of_rand r2;
     current_rotation := ROT_0;
     piece_x := SPAWN_X;
     piece_y := SPAWN_Y |}.

Definition game_set_starting_level (g : Game) (level : Z) : Game :=
  let level := if level <? 1 then 1 else if level >? 10 then 10 else level in
  let g := set_level g level in
  let g := set_state g GAME_STATE_PLAYING in
  if board_check_collision (board g) (current_piece g) (current_rotation g)
       (piece_x g) (piece_y g)
  then set_state g GAME_STATE_GAME_OVER
  else g.

(** [r]: the value [rand()] returns. *)
Definition game_spawn_piece (g : Game) (r : nat) : bool * Game :=
  let g := set_current_piece g (next_piece g) in
  let g := set_current_rotation g ROT_0 in
  let g := set_piece_x g SPAWN_X in
  let g := set_piece_y g SPAWN_Y in
  let g := set_next_piece g (piece_of_rand r) in
  let g := set_is_on_ground g false in
  let g := set_lock_delay_timer g 0.0%float in
  if board_check_collision (board g) (current_piece g) (current_rotation g)
       (piece_x g) (piece_y g)
  then (false, set_state g GAME_STATE_GAME_OVER)
  else (true, g).

Definition lock_and_clear (fuel : nat) (g : Game) (r : nat) : option Game :=
  let g := set_board g (board_lock_piece (board g) (current_piece g)
                          (current_rotation g) (piece_x g) (piece_y g)) in
  match board_clear_lines fuel (board g) with
  | None => None
  | Some (lines, b') =>
      let g := set_board g b' in
      let g :=
        if lines >? 0 then
          let g := set_lines_cleared g (lines_cleared g + lines) in
          let g := set_score g (score g + LINE_CLEAR_SCORES lines * level g) in
          set_level g (1 + Z.quot (lines_cleared g) LINES_PER_LEVEL)
        else g in
      Some (snd (game_spawn_piece g r))
  end.

Definition is_grounded (g : Game) : bool :=
  board_check_collision (board g) (current_piece g) (current_rotation g)
    (piece_x g) (piece_y g + 1).

Definition game_get_gravity_speed (g : Game) : float :=
  let speed := (0.8 - double_of_int (level g - 1) * 0.007)%float in
  if PrimFloat.ltb speed 0.05%float then 0.05%float else speed.

Definition game_update (fuel : nat) (g : Game) (delta_time : float) (r : nat)
  : option Game :=
  if negb (GameState_eqb (state g) GAME_STATE_PLAYING) then Some g
  else
    let g := set_gravity_timer g (gravity_timer g + delta_time)%float in
    let gravity_speed := game_get_gravity_speed g in
    let g :=
      if PrimFloat.leb gravity_speed (gravity_timer g) then
        let g := set_gravity_timer g 0.0%float in
        if negb (board_check_collision (board g) (current_piece g)
                   (current_rotation g) (piece_x g) (piece_y g + 1))
        then
          let g := set_piece_y g (piece_y g + 1) in
          let g := set_is_on_ground g false in
          set_lock_delay_timer g 0.0%float
        else set_is_on_ground g true
      else g in
    if is_on_ground g || is_grounded g then
      let g := set_is_on_ground g true in
      let g := set_lock_delay_timer g (lock_delay_timer g + delta_time)%float in
      if PrimFloat.leb LOCK_DELAY (lock_delay_timer g)
      then lock_and_clear fuel g r
      else Some g
    else Some (set_lock_delay_timer g 0.0%float).

(** The [if (!is_grounded(game))] bookkeeping shared by the sideways moves
    and the rotation. *)
Definition reset_lock_if_off_ground (g : Game) : Game :=
  if negb (is_grounded g)
  then set_lock_delay_timer (set_is_on_ground g false) 0.0%float
  else g.

Definition game_move_left (g : Game) : bool * Game :=
  if negb (GameState_eqb (state g) GAME_STATE_PLAYING) then (false, g)
  else
    let new_x := piece_x g - 1 in
    if negb (board_check_collision (board g) (current_piece g)
               (current_rotation g) new_x (piece_y g))
    then (true, reset_lock_if_off_ground (set_piece_x g new_x))
    else (false, g).

Definition game_move_right (g : Game) : bool * Game :=
  if negb (GameState_eqb (state g) GAME_STATE_PLAYING) then (false, g)
  else
    let new_x := piece_x g + 1 in
    if negb (board_check_collision (board g) (current_piece g)
               (current_rotation g) new_x (piece_y g))
    then (true, reset_lock_if_off_ground (set_piece_x g new_x))
    else (false, g).

Definition game_move_down (g : Game) : bool * Game :=
  if negb (GameState_eqb (state g) GAME_STATE_PLAYING) then (false, g)
  else
    let new_y := piece_y g + 1 in
    if negb (board_check_collision (board g) (current_piece g)
               (current_rotation g) (piece_x g) new_y)
    then
      let g := set_piece_y g new_y in
      let g := set_score g (score g + 1) in
      let g := set_is_on_ground g false in
      (true, set_lock_delay_timer g 0.0%float)
    else (false, g).

(** [WALL_KICK_OFFSETS[i]] *)
Definition wall_kick (i : nat) : Z * Z := nth i WALL_KICK_OFFSETS (0, 0).

(** The [for (i = 0; i < WALL_KICK_COUNT; i++)] loop of [game_rotate], with
    [n] the number of offsets still to try. *)
Fixpoint rotate_loop (g : Game) (new_rotation : RotationState) (i n : nat)
  : bool * Game :=
  match n with
  | O => (false, g)
  | S n' =>
      let test_x := piece_x g + fst (wall_kick i) in
      let test_y := piece_y g + snd (wall_kick i) in
      if negb (board_check_collision (board g) (current_piece g)
                 new_rotation test_x test_y)
      then
        let g := set_current_rotation g new_rotation in
        let g := set_piece_x g test_x in
        let g := set_piece_y g test_y in
        (true, reset_lock_if_off_ground g)
      else rotate_loop g new_rotation (S i) n'
  end.

Definition game_rotate (g : Game) : bool * Game :=
  if negb (GameState_eqb (state g) GAME_STATE_PLAYING) then (false, g)
  else rotate_loop g (piece_rotate_cw (current_rotation g)) 0 WALL_KICK_COUNT.

(** The [while] loop of [game_hard_drop]. *)
Fixpoint drop_loop (fuel : nat) (g : Game) (drop_distance : Z)
  : option (Z * Game) :=
  if negb (board_check_collision (board g) (current_piece g)
             (current_rotation g) (piece_x g) (piece_y g + 1))
  then
    match fuel with
    | O => None
    | S fuel' =>
        drop_loop fuel' (set_piece_y g (piece_y g + 1)) (drop_distance + 1)
    end
  else Some (drop_distance, g).

Definition game_hard_drop (fuel : nat) (g : Game) (r : nat) : option Game :=
  if negb (GameState_eqb (state g) GAME_STATE_PLAYING) then Some g
  else
    match drop_loop fuel g 0 with
    | None => None
    | Some (drop_distance, g) =>
        let g := set_score g (score g + drop_distance * 2) in
        lock_and_clear fuel g r
    end.

Definition game_toggle_pause (g : Game) : Game :=
  if GameState_eqb (state g) GAME_STATE_PLAYING
  then set_state g GAME_STATE_PAUSED
  else if GameState_eqb (state g) GAME_STATE_PAUSED
  then set_state g GAME_STATE_PLAYING
  else g.

Definition game_is_over (g : Game) : bool :=
  GameState_eqb (state g) GAME_STATE_GAME_OVER.

Definition game_is_paused (g : Game) : bool :=
  GameState_eqb (state g) GAME_STATE_PAUSED.

(** ** timing.h / timing.c

    A [Timer*] that may be NULL is an [option Timer]; the reading of the
    clock ([timer_get_time()]) is an argument. *)

Definition MAX_DELTA_TIME : float := 0.1%float.

Record Timer : Type := mkTimer {
  last_frame_time : float;
  target_frame_duration : float
}.

Definition timer_init (timer : option Timer) (target_fps : Z) (now : float)
  : option Timer :=
  match timer with
  | None => None
  | Some t =>
      if target_fps <=? 0 then Some t
      else Some {| target_frame_duration := (1.0 / double_of_int target_fps)%float;
                   last_frame_time := now |}
  end.

Definition timer_start_frame (timer : option Timer) (now : float)
  : option Timer :=
  match timer with
  | None => None
  | Some t => Some {| last_frame_time := now;
                      target_frame_duration := target_frame_duration t |}
  end.

Definition timer_get_delta (timer : option Timer) (current_time : float)
  : float :=
  match timer with
  | None => 0.0%float
  | Some t =>
      let delta := (current_time - last_frame_time t)%float in
      if PrimFloat.ltb MAX_DELTA_TIME delta then MAX_DELTA_TIME else delta
  end.

(** ** main.c (the version with the start screen) *)

Inductive InputAction : Set :=
  | INPUT_NONE
  | INPUT_LEFT
  | INPUT_RIGHT
  | INPUT_DOWN
  | INPUT_ROTATE
  | INPUT_HARD_DROP
  | INPUT_PAUSE
  | INPUT_QUIT
  | INPUT_START.

(** [handle_input]: the game and the two locals of [main] it writes through
    pointers, [should_quit] and [selected_level], are returned. *)
Definition handle_input (fuel : nat) (g : Game) (action : InputAction)
    (should_quit : bool) (selected_level : Z) (r : nat)
  : option (Game * bool * Z) :=
  match action with
  | INPUT_LEFT =>
      if GameState_eqb (state g) GAME_STATE_START_SCREEN then
        let selected_level := selected_level - 1 in
        let selected_level :=
          if selected_level <? 1 then 10 else selected_level in
        Some (g, should_quit, selected_level)
      else Some (snd (game_move_left g), should_quit, selected_level)
  | INPUT_RIGHT =>
      if GameState_eqb (state g) GAME_STATE_START_SCREEN then
        let selected_level := selected_level + 1 in
        let selected_level :=
          if selected_level >? 10 then 1 else selected_level in
        Some (g, should_quit, selected_level)
      else Some (snd (game_move_right g), should_quit, selected_level)
  | INPUT_DOWN =>
      if GameState_eqb (state g) GAME_STATE_START_SCREEN then
        let selected_level := selected_level + 5 in
        let selected_level :=
          if selected_level >? 10 then
            let selected_level := Z.rem selected_level 10 in
            if selected_level =? 0 then 10 else selected_level
          else selected_level in
        Some (g, should_quit, selected_level)
      else Some (snd (game_move_down g), should_quit, selected_level)
  | INPUT_ROTATE =>
      if GameState_eqb (state g) GAME_STATE_START_SCREEN then
        let selected_level := selected_level - 5 in
        let selected_level :=
          if selected_level <? 1 then selected_level + 10
          else selected_level in
        Some (g, should_quit, selected_level)
      else Some (snd (game_rotate g), should_quit, selected_level)
  | INPUT_HARD_DROP =>
      if negb (GameState_eqb (state g) GAME_STATE_START_SCREEN) then
        match game_hard_drop fuel g r with
        | Some g' => Some (g', should_quit, selected_level)
        | None => None
        end
      else Some (g, should_quit, selected_level)
  | INPUT_PAUSE =>
      if negb (GameState_eqb (state g) GAME_STATE_START_SCREEN)
      then Some (game_toggle_pause g, should_quit, selected_level)
      else Some (g, should_quit, selected_level)
  | INPUT_QUIT => Some (g, true, selected_level)
  | INPUT_START =>
      if GameState_eqb (state g) GAME_STATE_START_SCREEN
      then Some (game_set_starting_level g selected_level, should_quit,
                 selected_level)
      else Some (g, should_quit, selected_level)
  | INPUT_NONE => Some (g, should_quit, selected_level)
  end.

(** The body of the [while (!should_quit)] loop of [main]: the timer, the
    input and the update phases.  [now_delta] and [now_start] are the two
    readings of the clock, [action] is what [input_poll()] returned, [r1] and
    [r2] what [rand()] would return in the input and the update phase.  The
    render phase only reads the game, and [timer_wait_frame] only sleeps. *)
Definition main_loop_iteration (fuel : nat) (timer : Timer) (g : Game)
    (should_quit : bool) (selected_level : Z) (now_delta now_start : float)
    (action : InputAction) (r1 r2 : nat)
  : option (option Timer * Game * bool * Z) :=
  let delta := timer_get_delta (Some timer) now_delta in
  let timer := timer_start_frame (Some timer) now_start in
  match handle_input fuel g action should_quit selected_level r1 with
  | None => None
  | Some (g, should_quit, selected_level) =>
      if negb (game_is_paused g)
         && negb (GameState_eqb (state g) GAME_STATE_START_SCREEN)
      then
        match game_update fuel g delta r2 with
        | Some g => Some (timer, g, should_quit, selected_level)
        | None => None
        end
      else Some (timer, g, should_quit, selected_level)
  end.

(** * Vocabulary of the statements

    Predicates, observations and sample games used to state the properties
    below; none of them is part of the C code. *)

(** What makes one absolute cell of a piece a reason to collide. *)
Definition block_collides (b : Board) (bx by_ : Z) : Prop :=
  bx < 0 \/ bx >= BOARD_WIDTH \/ by_ >= BOARD_HEIGHT \/
  (0 <= by_ < BOARD_HEIGHT /\ board_get_cell b bx by_ <> 0).

(** The coordinates that name a cell of the board. *)
Definition on_board (cx cy : Z) : bool :=
  (cx >=? 0) && (cx <? BOARD_WIDTH) && (cy >=? 0) && (cy <? BOARD_HEIGHT).

(** A row as [clear_top_row] leaves it. *)
Definition empty_row : list Z := replicate (Z.to_nat BOARD_WIDTH) 0.

(** A row is full when none of its cells is 0. *)
Definition row_full (row : list Z) : bool :=
  forallb (fun v => negb (v =? 0)) row.

(** How many of the rows are full. *)
Definition count_full (rows : Board) : nat :=
  length (List.filter row_full rows).

(** The rows that are not full, in their order. *)
Definition kept_rows (rows : Board) : Board :=
  List.filter (fun row => negb (row_full row)) rows.

(** A row has [BOARD_WIDTH] cells. *)
Abbreviation row_ok := (fun row : list Z => length row = Z.to_nat BOARD_WIDTH).

(** The example of the specification: rows 5 and 10 full. *)
Definition two_full_rows : Board :=
  let mark i := replicate 9 0 ++ [Z.of_nat i + 1] in
  let full := replicate 10 3 in
  map mark (seq 0 5) ++ [full] ++ map mark (seq 6 4) ++ [full]
  ++ map mark (seq 11 9).

(** Every cell is empty (0) or a colour 1..7. *)
Definition cells_in_domain (b : Board) : Prop :=
  Forall (Forall (fun v => 0 <= v <= 7)) b.

(** The boards the program can build: [board_init], then any number of
    [board_lock_piece] and [board_clear_lines] calls. *)
Inductive board_reachable : Board -> Prop :=
  | reach_init : board_reachable board_init
  | reach_lock (b : Board) (t : PieceType) (r : RotationState) (x y : Z) :
      board_reachable b -> board_reachable (board_lock_piece b t r x y)
  | reach_clear (b : Board) (fuel : nat) (n : Z) (b' : Board) :
      board_reachable b -> board_clear_lines fuel b = Some (n, b') ->
      board_reachable b'.

(** A sequence of [game_update] calls, each with its [delta_time] and the
    value [rand()] would return. *)
Fixpoint game_update_many (fuel : nat) (g : Game) (calls : list (float * nat))
  : option Game :=
  match calls with
  | [] => Some g
  | (delta_time, r) :: rest =>
      match game_update fuel g delta_time r with
      | Some g' => game_update_many fuel g' rest
      | None => None
      end
  end.

(** A paused game with both timers running. *)
Definition paused_game : Game :=
  set_lock_delay_timer
    (set_gravity_timer
       (set_state (game_init 2 5) GAME_STATE_PAUSED) 0.25%float)
    0.125%float.

(** The game after a rotation to [new_rotation] is committed at the offset
    [(dx, dy)]. *)
Definition rotate_commit (g : Game) (new_rotation : RotationState)
    (dx dy : Z) : Game :=
  reset_lock_if_off_ground
    (set_piece_y
       (set_piece_x (set_current_rotation g new_rotation) (piece_x g + dx))
       (piece_y g + dy)).

(** Whether the [i]-th offset of the rotation collides at the new rotation. *)
Definition kick_collides (g : Game) (i : nat) : bool :=
  board_check_collision (board g) (current_piece g)
    (piece_rotate_cw (current_rotation g))
    (piece_x g + fst (nth i [(0, 0); (-1, 0); (1, 0); (0, -1); (-2, 0); (2, 0)]
                        (0, 0)))
    (piece_y g + snd (nth i [(0, 0); (-1, 0); (1, 0); (0, -1); (-2, 0); (2, 0)]
                        (0, 0))).

(** An upright I piece in the last column rotates with the left-1 offset. *)
Definition rotate_game : Game :=
  set_piece_y
    (set_piece_x
       (set_current_rotation
          (set_state (game_init 0 1) GAME_STATE_PLAYING) ROT_90) 7) 5.

(** A board whose spawn footprint is filled, and nothing else. *)
Definition footprint_board : Board :=
  cells_set (cells_set (cells_set (cells_set board_init 0 4 1) 0 5 1) 1 4 1)
    1 5 1.

(** The table of the specification. *)
Definition base_score (count : Z) : Z :=
  match count with
  | 1 => 100
  | 2 => 300
  | 3 => 500
  | 4 => 800
  | _ => 0
  end.

(** The board once the active piece is written into it. *)
Definition locked_board (g : Game) : Board :=
  board_lock_piece (board g) (current_piece g) (current_rotation g)
    (piece_x g) (piece_y g).

(** Four rows with only the last column free, an upright I piece in that
    column, level 3 with 20 lines so far. *)
Definition tetris_game : Game :=
  let rows := replicate 16 empty_row ++ replicate 4 (replicate 9 6 ++ [0]) in
  set_lines_cleared
    (set_level
       (set_piece_y
          (set_piece_x
             (set_current_rotation
                (set_board (set_state (game_init 0 1) GAME_STATE_PLAYING) rows)
                ROT_90) 7) 16) 3) 20.

(** All of the game but the row of the piece. *)
Definition same_but_piece_y (g g' : Game) : Prop :=
  board g' = board g /\ state g' = state g /\
  current_piece g' = current_piece g /\
  current_rotation g' = current_rotation g /\
  piece_x g' = piece_x g /\ next_piece g' = next_piece g /\
  score g' = score g /\ level g' = level g /\
  lines_cleared g' = lines_cleared g /\
  gravity_timer g' = gravity_timer g /\
  lock_delay_timer g' = lock_delay_timer g /\
  is_on_ground g' = is_on_ground g.

(** An I piece far above an empty board. *)
Definition high_game : Game :=
  set_piece_y (set_state (game_init 0 3) GAME_STATE_PLAYING) (-40).

(** The calls a driver makes on a game once it has started. *)
Inductive Action : Type :=
  | ActMoveLeft
  | ActMoveRight
  | ActMoveDown
  | ActRotate
  | ActHardDrop (r : nat)
  | ActTogglePause
  | ActUpdate (delta_time : float) (r : nat)
  | ActSpawn (r : nat).

(** The function of game.c each call stands for. *)
Definition apply_action (fuel : nat) (g : Game) (a : Action) : option Game :=
  match a with
  | ActMoveLeft => Some (snd (game_move_left g))
  | ActMoveRight => Some (snd (game_move_right g))
  | ActMoveDown => Some (snd (game_move_down g))
  | ActRotate => Some (snd (game_rotate g))
  | ActHardDrop r => game_hard_drop fuel g r
  | ActTogglePause => Some (game_toggle_pause g)
  | ActUpdate delta_time r => game_update fuel g delta_time r
  | ActSpawn r => Some (snd (game_spawn_piece g r))
  end.

(** A sequence of calls. *)
Fixpoint run (fuel : nat) (g : Game) (actions : list Action) : option Game :=
  match actions with
  | [] => Some g
  | a :: rest =>
      match apply_action fuel g a with
      | Some g' => run fuel g' rest
      | None => None
      end
  end.

(** How one call may change the two counters: not at all, or the line total
    grows and the level is recomputed from it. *)
Definition level_step (g g' : Game) : Prop :=
  (level g' = level g /\ lines_cleared g' = lines_cleared g) \/
  (lines_cleared g < lines_cleared g' /\
   level g' = 1 + Z.quot (lines_cleared g') LINES_PER_LEVEL).

(** The facts about the counters that every call keeps. *)
Definition counters_ok (g : Game) : Prop := 0 <= lines_cleared g /\ 1 <= level g.

(** Five O pieces side by side fill two rows: one such round of calls. *)
Definition o_piece_round : list Action :=
  [ActMoveLeft; ActMoveLeft; ActMoveLeft; ActMoveLeft; ActHardDrop 1;
   ActMoveLeft; ActMoveLeft; ActHardDrop 1;
   ActHardDrop 1;
   ActMoveRight; ActMoveRight; ActHardDrop 1;
   ActMoveRight; ActMoveRight; ActMoveRight; ActMoveRight; ActHardDrop 1].

(** A game of O pieces only, started at level [l]. *)
Definition o_piece_game (l : Z) : Game :=
  game_set_starting_level (game_init 1 1) l.

(** * Properties *)

(** ** Boolean tests on [Z] *)

Ltac zbool :=
  rewrite ?Z.geb_leb, ?Z.gtb_ltb in *;
  repeat match goal with
    | H : (_ <? _) = true |- _ => apply Z.ltb_lt in H
    | H : (_ <? _) = false |- _ => apply Z.ltb_ge in H
    | H : (_ <=? _) = true |- _ => apply Z.leb_le in H
    | H : (_ <=? _) = false |- _ => apply Z.leb_gt in H
    | H : (_ =? _) = true |- _ => apply Z.eqb_eq in H
    | H : (_ =? _) = false |- _ => apply Z.eqb_neq in H
    | H : _ || _ = true |- _ => apply orb_true_iff in H
    | H : _ || _ = false |- _ => apply orb_false_iff in H; destruct H
    | H : _ && _ = true |- _ => apply andb_true_iff in H; destruct H
    | H : _ && _ = false |- _ => apply andb_false_iff in H
    | H : negb _ = true |- _ => apply negb_true_iff in H
    | H : negb _ = false |- _ => apply negb_false_iff in H
    end.

(** ** Reading and writing cells of a well-formed board *)

Lemma wf_board_init : wf_board board_init.
Proof.
  split; [reflexivity|].
  unfold board_init. apply Forall_replicate. reflexivity.
Qed.

Lemma wf_board_lookup (b : Board) (y : Z) :
  wf_board b -> 0 <= y < BOARD_HEIGHT ->
  exists row, b !! Z.to_nat y = Some row /\ length row = Z.to_nat BOARD_WIDTH.
Proof.
  intros [Hlen Hrows] Hy.
  destruct (lookup_lt_is_Some_2 b (Z.to_nat y)) as [row Hrow].
  { rewrite Hlen. unfold BOARD_HEIGHT in *. lia. }
  exists row. split; [assumption|].
  rewrite Forall_lookup in Hrows. exact (Hrows _ _ Hrow).
Qed.

Lemma wf_board_cells_set (b : Board) (y x v : Z) :
  wf_board b -> wf_board (cells_set b y x v).
Proof.
  intros [Hlen Hrows]. unfold cells_set.
  destruct (b !! Z.to_nat y) as [row|] eqn:Hrow; [|split; assumption].
  split.
  - rewrite length_insert. assumption.
  - apply Forall_insert; [assumption|].
    rewrite length_insert.
    rewrite Forall_lookup in Hrows. exact (Hrows _ _ Hrow).
Qed.

Lemma cells_get_set (b : Board) (y x v y' x' : Z) :
  wf_board b ->
  0 <= y < BOARD_HEIGHT -> 0 <= x < BOARD_WIDTH -> 0 <= y' -> 0 <= x' ->
  cells_get (cells_set b y x v) y' x' =
    if (y' =? y) && (x' =? x) then v else cells_get b y' x'.
Proof.
  intros Hwf Hy Hx Hy' Hx'.
  destruct (wf_board_lookup b y Hwf Hy) as (row & Hrow & Hlen).
  unfold cells_set, cells_get. rewrite Hrow.
  destruct (y' =? y) eqn:Ey; zbool.
  - subst y'. rewrite list_lookup_insert_eq by (eapply lookup_lt_Some; eassumption).
    rewrite Hrow.
    destruct (x' =? x) eqn:Ex; zbool; simpl.
    + subst x'. rewrite list_lookup_insert_eq; [reflexivity|].
      rewrite Hlen. unfold BOARD_WIDTH in *. lia.
    + rewrite list_lookup_insert_ne by lia. reflexivity.
  - simpl. rewrite list_lookup_insert_ne by lia. reflexivity.
Qed.

Lemma board_get_cell_set (b : Board) (y x v cx cy : Z) :
  wf_board b ->
  0 <= y < BOARD_HEIGHT -> 0 <= x < BOARD_WIDTH ->
  board_get_cell (cells_set b y x v) cx cy =
    if (cx =? x) && (cy =? y) then v else board_get_cell b cx cy.
Proof.
  intros Hwf Hy Hx. unfold board_get_cell.
  destruct ((cx <? 0) || (cx >=? BOARD_WIDTH) || (cy <? 0)
            || (cy >=? BOARD_HEIGHT)) eqn:E.
  - destruct ((cx =? x) && (cy =? y)) eqn:E'; [|reflexivity].
    exfalso. zbool. unfold BOARD_WIDTH, BOARD_HEIGHT in *.
    subst. intuition lia.
  - zbool. rewrite cells_get_set by (assumption || lia).
    rewrite andb_comm. reflexivity.
Qed.

(** ** Collision *)

Lemma check_blocks_true_iff (b : Board) (x y : Z) (blocks : PieceShape) :
  check_blocks b x y blocks = true <->
  exists dx dy, In (dx, dy) blocks /\ block_collides b (x + dx) (y + dy).
Proof.
  induction blocks as [|[dx dy] rest IH]; simpl.
  - split; [discriminate|]. intros (? & ? & [] & _).
  - assert (Hhead :
      (exists dx' dy', ((dx, dy) = (dx', dy') \/ In (dx', dy') rest) /\
         block_collides b (x + dx') (y + dy')) <->
      block_collides b (x + dx) (y + dy) \/
      (exists dx' dy', In (dx', dy') rest /\
         block_collides b (x + dx') (y + dy'))).
    { split.
      - intros (dx' & dy' & [Heq | Hin] & Hc).
        + injection Heq as <- <-. left; assumption.
        + right; eauto.
      - intros [Hc | (dx' & dy' & Hin & Hc)]; eauto 6. }
    rewrite Hhead, <- IH. clear Hhead IH.
    unfold block_collides, board_get_cell, BOARD_WIDTH, BOARD_HEIGHT.
    rewrite !Z.geb_leb.
    destruct (Z.ltb_spec (x + dx) 0), (Z.leb_spec 10 (x + dx)),
      (Z.leb_spec 20 (y + dy)), (Z.ltb_spec (y + dy) 0),
      (Z.eqb_spec (cells_get b (y + dy) (x + dx)) 0); simpl;
      intuition (lia || congruence).
Qed.

Lemma piece_shape_length (t : PieceType) (r : RotationState) :
  length (piece_get_shape t r) = 4%nat.
Proof. destruct t, r; reflexivity. Qed.

(** C1: [board_check_collision] answers true exactly when one of the four
    absolute cells of the piece is left or right of the board, or at or below
    row [BOARD_HEIGHT], or on a row of the board at a cell that is not empty;
    a cell above row 0 is only tested against the side walls.  A piece whose
    four cells are all on the board and on empty cells does not collide. *)
Theorem board_check_collision_spec (b : Board) (t : PieceType)
    (r : RotationState) (x y : Z) :
  length (piece_get_shape t r) = 4%nat /\
  (board_check_collision b t r x y = true <->
     exists dx dy, In (dx, dy) (piece_get_shape t r) /\
       (x + dx < 0 \/ x + dx >= BOARD_WIDTH \/ y + dy >= BOARD_HEIGHT \/
        (0 <= y + dy < BOARD_HEIGHT /\
         board_get_cell b (x + dx) (y + dy) <> 0))) /\
  ((forall dx dy, In (dx, dy) (piece_get_shape t r) ->
      0 <= x + dx < BOARD_WIDTH /\ 0 <= y + dy < BOARD_HEIGHT /\
      board_get_cell b (x + dx) (y + dy) = 0) ->
   board_check_collision b t r x y = false).
Proof.
  split; [apply piece_shape_length|].
  split; [apply check_blocks_true_iff|].
  intros Hfree.
  destruct (board_check_collision b t r x y) eqn:E; [|reflexivity].
  apply check_blocks_true_iff in E as (dx & dy & Hin & Hc).
  destruct (Hfree dx dy Hin) as (Hx & Hy & Hcell).
  unfold block_collides in Hc. intuition lia.
Qed.

Lemma board_check_collision_spec_witness :
  board_check_collision board_init PIECE_O ROT_0 3 0 = false /\
  board_check_collision board_init PIECE_O ROT_0 8 0 = true.
Proof.
  split.
  - destruct (board_check_collision_spec board_init PIECE_O ROT_0 3 0)
      as (_ & _ & Hfree).
    apply Hfree. intros dx dy Hin. simpl in Hin.
    repeat (destruct Hin as [Hin | Hin];
            [injection Hin as <- <-; vm_compute; repeat split; congruence|]).
    contradiction.
  - destruct (board_check_collision_spec board_init PIECE_O ROT_0 8 0)
      as (_ & Hiff & _).
    apply Hiff. exists 2, 0. split; [simpl; tauto|].
    right; left. vm_compute. congruence.
Defined.

(** ** Locking *)

Lemma board_get_cell_off_board (b : Board) (cx cy : Z) :
  on_board cx cy = false -> board_get_cell b cx cy = 0.
Proof.
  unfold on_board, board_get_cell. rewrite !Z.geb_leb.
  destruct (Z.leb_spec 0 cx), (Z.ltb_spec cx BOARD_WIDTH),
    (Z.leb_spec 0 cy), (Z.ltb_spec cy BOARD_HEIGHT),
    (Z.ltb_spec cx 0), (Z.leb_spec BOARD_WIDTH cx),
    (Z.ltb_spec cy 0), (Z.leb_spec BOARD_HEIGHT cy);
    simpl; intros; try reflexivity; try discriminate; lia.
Qed.

Lemma wf_lock_blocks (blocks : PieceShape) (b : Board) (color x y : Z) :
  wf_board b -> wf_board (lock_blocks b color x y blocks).
Proof.
  revert b. induction blocks as [|[dx dy] rest IH]; intros b Hwf; simpl.
  - assumption.
  - destruct (_ && _); apply IH; [apply wf_board_cells_set|]; assumption.
Qed.

Lemma lock_blocks_get (blocks : PieceShape) (b : Board) (color x y cx cy : Z) :
  wf_board b ->
  board_get_cell (lock_blocks b color x y blocks) cx cy =
    if existsb (fun p => (x + fst p =? cx) && (y + snd p =? cy)) blocks
       && on_board cx cy
    then color else board_get_cell b cx cy.
Proof.
  revert b. induction blocks as [|[dx dy] rest IH]; intros b Hwf; simpl.
  - reflexivity.
  - destruct ((x + dx >=? 0) && (x + dx <? BOARD_WIDTH) && (y + dy >=? 0)
              && (y + dy <? BOARD_HEIGHT)) eqn:Eguard.
    + rewrite IH by (apply wf_board_cells_set; assumption).
      assert (0 <= x + dx < BOARD_WIDTH /\ 0 <= y + dy < BOARD_HEIGHT)
        as [Hx Hy] by (zbool; lia).
      rewrite board_get_cell_set by assumption.
      destruct (Z.eqb_spec (x + dx) cx) as [<-|Hne];
        [destruct (Z.eqb_spec (y + dy) cy) as [<-|Hne]|]; simpl.
      * fold (on_board (x + dx) (y + dy)) in Eguard. rewrite Eguard.
        rewrite !Z.eqb_refl. simpl.
        destruct (existsb _ rest); reflexivity.
      * replace (y + dy =? cy) with false; [|symmetry; apply Z.eqb_neq; lia].
        replace (cy =? y + dy) with false; [|symmetry; apply Z.eqb_neq; lia].
        rewrite andb_false_r. reflexivity.
      * replace (cx =? x + dx) with false; [|symmetry; apply Z.eqb_neq; lia].
        reflexivity.
    + rewrite IH by assumption.
      destruct ((x + dx =? cx) && (y + dy =? cy)) eqn:Ehere; [|reflexivity].
      simpl. apply andb_true_iff in Ehere as [E1 E2].
      apply Z.eqb_eq in E1, E2. subst cx cy.
      fold (on_board (x + dx) (y + dy)) in Eguard. rewrite Eguard.
      rewrite andb_false_r. reflexivity.
Qed.

(** C7: after [board_lock_piece], every absolute cell of the piece that is
    on the board reads as the piece's colour through [board_get_cell]; every
    coordinate that is not an absolute cell of the piece reads as before; the
    board keeps its dimensions, so a cell of the piece above row 0 is stored
    nowhere and reads as empty. *)
Theorem board_lock_piece_spec (b : Board) (t : PieceType) (r : RotationState)
    (x y : Z) :
  wf_board b ->
  wf_board (board_lock_piece b t r x y) /\
  (forall dx dy, In (dx, dy) (piece_get_shape t r) ->
     0 <= x + dx < BOARD_WIDTH -> 0 <= y + dy < BOARD_HEIGHT ->
     board_get_cell (board_lock_piece b t r x y) (x + dx) (y + dy)
       = piece_get_color t) /\
  (forall cx cy,
     (forall dx dy, In (dx, dy) (piece_get_shape t r) ->
        cx <> x + dx \/ cy <> y + dy) ->
     board_get_cell (board_lock_piece b t r x y) cx cy
       = board_get_cell b cx cy) /\
  (forall cx cy, cy < 0 ->
     board_get_cell (board_lock_piece b t r x y) cx cy = 0).
Proof.
  intros Hwf. unfold board_lock_piece.
  split; [apply wf_lock_blocks; assumption|].
  split; [|split].
  - intros dx dy Hin Hx Hy. rewrite lock_blocks_get by assumption.
    replace (existsb _ _) with true.
    + replace (on_board (x + dx) (y + dy)) with true; [reflexivity|].
      symmetry. unfold on_board. rewrite !Z.geb_leb.
      repeat (apply andb_true_iff; split);
        (apply Z.leb_le || apply Z.ltb_lt); lia.
    + symmetry. apply existsb_exists. exists (dx, dy). simpl.
      rewrite !Z.eqb_refl. split; [assumption|reflexivity].
  - intros cx cy Hother. rewrite lock_blocks_get by assumption.
    replace (existsb _ _) with false; [reflexivity|].
    symmetry. apply not_true_is_false. intros Hex.
    apply existsb_exists in Hex as ([dx dy] & Hin & Heq).
    simpl in Heq. zbool. destruct (Hother dx dy Hin); lia.
  - intros cx cy Hneg. apply board_get_cell_off_board.
    unfold on_board. rewrite !Z.geb_leb.
    replace (0 <=? cy) with false; [|symmetry; apply Z.leb_gt; lia].
    rewrite andb_false_r. reflexivity.
Qed.

(** ** Line clearing *)

Ltac explode_row row H :=
  do 11 (destruct row as [|? row]; try discriminate H); clear H.

Lemma line_full_row (b : Board) (y : Z) (row : list Z) :
  b !! Z.to_nat y = Some row -> row_ok row ->
  line_full b y = row_full row.
Proof.
  intros Hrow Hlen. unfold line_full, cells_get. rewrite Hrow.
  explode_row row Hlen. reflexivity.
Qed.

Lemma clear_lines_loop_eq (fuel : nat) (b : Board) (y lines : Z) :
  clear_lines_loop fuel b y lines =
    if y >=? 0 then
      match fuel with
      | O => None
      | S fuel' =>
          if line_full b y then
            clear_lines_loop fuel'
              (clear_top_row (shift_rows_down b (Z.to_nat y)))
              (y + 1 - 1) (lines + 1)
          else clear_lines_loop fuel' b (y - 1) lines
      end
    else Some (lines, b).
Proof. destruct fuel; reflexivity. Qed.

(** A [for x] loop that only writes row [y] rewrites that row. *)
Lemma fold_cells_set_row (val : Board -> Z -> Z) (f : Z -> Z) (y : Z)
    (xs : list Z) :
  forall (b : Board) (row : list Z),
    b !! Z.to_nat y = Some row ->
    (forall r x, val (<[Z.to_nat y := r]> b) x = f x) ->
    fold_left (fun b' x => cells_set b' y x (val b' x)) xs b =
      <[Z.to_nat y := fold_left (fun r x => <[Z.to_nat x := f x]> r) xs row]> b.
Proof.
  induction xs as [|x xs IH]; intros b row Hrow Hval; simpl.
  - symmetry. apply list_insert_id. assumption.
  - assert (Hlt : (Z.to_nat y < length b)%nat)
      by (eapply lookup_lt_Some; eassumption).
    assert (Hvx : val b x = f x).
    { rewrite <- (Hval row x). f_equal. symmetry.
      apply list_insert_id. assumption. }
    unfold cells_set at 2. rewrite Hrow, Hvx.
    rewrite (IH _ (<[Z.to_nat x := f x]> row)).
    + apply list_insert_insert_eq.
    + apply list_lookup_insert_eq. assumption.
    + intros r x'. rewrite list_insert_insert_eq. apply Hval.
Qed.

Lemma copy_row_down_insert (b : Board) (k : nat) (src dst : list Z) :
  b !! k = Some src -> b !! S k = Some dst -> row_ok src -> row_ok dst ->
  copy_row_down b (Z.of_nat (S k)) = <[S k := src]> b.
Proof.
  intros Hsrc Hdst Hlsrc Hldst. unfold copy_row_down.
  rewrite (fold_cells_set_row _ (fun x => default 0 (src !! Z.to_nat x)) _ _ b dst).
  - rewrite Nat2Z.id. f_equal.
    explode_row src Hlsrc. explode_row dst Hldst. reflexivity.
  - rewrite Nat2Z.id. assumption.
  - intros r x. unfold cells_get.
    replace (Z.to_nat (Z.of_nat (S k) - 1)) with k by lia.
    rewrite Nat2Z.id, list_lookup_insert_ne by lia.
    rewrite Hsrc. reflexivity.
Qed.

Lemma clear_top_row_insert (b : Board) (row : list Z) :
  b !! 0%nat = Some row -> row_ok row ->
  clear_top_row b = <[0%nat := empty_row]> b.
Proof.
  intros Hrow Hlen. unfold clear_top_row.
  rewrite (fold_cells_set_row _ (fun _ => 0) 0 _ b row).
  - change (Z.to_nat 0) with 0%nat. f_equal.
    explode_row row Hlen. reflexivity.
  - assumption.
  - reflexivity.
Qed.

Lemma drop_insert_here {A} (l : list A) (i : nat) (x : A) :
  (i < length l)%nat -> drop i (<[i := x]> l) = x :: drop (S i) l.
Proof.
  revert i. induction l as [|a l IH]; intros [|i] Hlt; simpl in *;
    try lia; [reflexivity|].
  apply IH. lia.
Qed.

Lemma cut_middle {A} (l1 : list A) (x : A) (l2 : list A) :
  take (length l1) (l1 ++ x :: l2) ++ drop (S (length l1)) (l1 ++ x :: l2)
  = l1 ++ l2.
Proof.
  rewrite take_app_length. f_equal.
  change (x :: l2) with ([x] ++ l2). rewrite app_assoc.
  apply drop_app_length'. rewrite length_app. simpl. lia.
Qed.

Lemma shift_rows_down_eq (n : nat) :
  forall b : Board,
    Forall row_ok b -> (n < length b)%nat ->
    shift_rows_down b n = take 1 b ++ take n b ++ drop (S n) b.
Proof.
  induction n as [|k IH]; intros b Hrows Hlt; simpl shift_rows_down.
  - simpl. destruct b; reflexivity.
  - destruct (lookup_lt_is_Some_2 b k) as [src Hsrc]; [lia|].
    destruct (lookup_lt_is_Some_2 b (S k)) as [dst Hdst]; [lia|].
    rewrite Forall_lookup in Hrows.
    rewrite (copy_row_down_insert b k src dst) by eauto.
    rewrite IH.
    + rewrite !take_insert_ge by lia.
      rewrite drop_insert_here by lia.
      rewrite (take_S_r b k src) by assumption.
      rewrite <- !app_assoc. reflexivity.
    + apply Forall_insert; [apply Forall_lookup; assumption|eauto].
    + rewrite length_insert. lia.
Qed.

(** Removing row [n]: the rows above it move down and the top row is empty. *)
Lemma remove_row_eq (b : Board) (n : nat) :
  Forall row_ok b -> (n < length b)%nat ->
  clear_top_row (shift_rows_down b n) = empty_row :: take n b ++ drop (S n) b.
Proof.
  intros Hrows Hlt. rewrite shift_rows_down_eq by assumption.
  destruct b as [|r0 b']; [simpl in Hlt; lia|].
  rewrite (clear_top_row_insert _ r0).
  - reflexivity.
  - reflexivity.
  - apply Forall_inv in Hrows. assumption.
Qed.

Lemma row_full_empty_row : row_full empty_row = false.
Proof. reflexivity. Qed.

Lemma row_ok_empty_row : row_ok empty_row.
Proof. reflexivity. Qed.

Lemma count_full_app (l1 l2 : Board) :
  count_full (l1 ++ l2) = (count_full l1 + count_full l2)%nat.
Proof. unfold count_full. rewrite List.filter_app, length_app. reflexivity. Qed.

Lemma kept_rows_app (l1 l2 : Board) :
  kept_rows (l1 ++ l2) = kept_rows l1 ++ kept_rows l2.
Proof. apply List.filter_app. Qed.

Lemma count_full_single (row : list Z) :
  count_full [row] = if row_full row then 1%nat else 0%nat.
Proof. unfold count_full. simpl. destruct (row_full row); reflexivity. Qed.

Lemma kept_rows_single (row : list Z) :
  kept_rows [row] = if row_full row then [] else [row].
Proof. unfold kept_rows. simpl. destruct (row_full row); reflexivity. Qed.

Lemma count_full_le (l : Board) : (count_full l <= length l)%nat.
Proof. apply List.filter_length_le. Qed.

Lemma kept_rows_length (l : Board) :
  (length (kept_rows l) + count_full l = length l)%nat.
Proof.
  unfold kept_rows, count_full.
  induction l as [|r l IH]; simpl; [reflexivity|].
  destruct (row_full r); simpl; lia.
Qed.

(** The scan of the rows that were empty rows added at the top. *)
Lemma clear_lines_loop_top (c : nat) (rest : Board) (lines : Z) :
  forall (j fuel : nat), (j <= c)%nat -> (j <= fuel)%nat ->
    clear_lines_loop fuel (replicate c empty_row ++ rest)
      (Z.of_nat j - 1) lines
    = Some (lines, replicate c empty_row ++ rest).
Proof.
  induction j as [|j IH]; intros fuel Hj Hfuel; rewrite clear_lines_loop_eq.
  - reflexivity.
  - replace (Z.of_nat (S j) - 1 >=? 0) with true
      by (symmetry; rewrite Z.geb_leb; apply Z.leb_le; lia).
    destruct fuel as [|fuel]; [lia|].
    rewrite (line_full_row _ _ empty_row).
    + rewrite row_full_empty_row.
      replace (Z.of_nat (S j) - 1 - 1) with (Z.of_nat j - 1) by lia.
      apply IH; lia.
    + replace (Z.to_nat (Z.of_nat (S j) - 1)) with j by lia.
      rewrite lookup_app_l by (rewrite length_replicate; lia).
      apply lookup_replicate_2. lia.
    + reflexivity.
Qed.

(** The scan of the rows [pre] of the original board that are still above
    the index, [c] full rows having been removed so far and [kept] being the
    rows below that stayed. *)
Lemma clear_lines_loop_scan (pre : Board) :
  forall (c : nat) (kept : Board) (fuel : nat) (lines : Z),
    Forall row_ok pre -> Forall row_ok kept ->
    (length pre + c + count_full pre <= fuel)%nat ->
    clear_lines_loop fuel (replicate c empty_row ++ pre ++ kept)
      (Z.of_nat (c + length pre) - 1) lines
    = Some (lines + Z.of_nat (count_full pre),
            replicate (c + count_full pre) empty_row ++ kept_rows pre ++ kept).
Proof.
  induction pre as [|row pre IH] using rev_ind;
    intros c kept fuel lines Hpre Hkept Hfuel.
  - change (count_full []) with 0%nat in *. simpl in *.
    rewrite !Nat.add_0_r in *. rewrite Z.add_0_r.
    apply clear_lines_loop_top; lia.
  - apply Forall_app in Hpre as [Hpre Hrow]. apply Forall_inv in Hrow.
    rewrite length_app in *. simpl length in *.
    rewrite count_full_app, kept_rows_app in *.
    rewrite clear_lines_loop_eq.
    replace (Z.of_nat (c + (length pre + 1)) - 1 >=? 0) with true
      by (symmetry; rewrite Z.geb_leb; apply Z.leb_le; lia).
    destruct fuel as [|fuel]; [lia|].
    replace (Z.of_nat (c + (length pre + 1)) - 1)
      with (Z.of_nat (c + length pre)) by lia.
    rewrite Nat2Z.id.
    assert (Hat : (replicate c empty_row ++ (pre ++ [row]) ++ kept)
                    !! (c + length pre)%nat = Some row).
    { rewrite lookup_app_r by (rewrite length_replicate; lia).
      rewrite length_replicate.
      replace (c + length pre - c)%nat with (length pre) by lia.
      rewrite <- app_assoc. rewrite lookup_app_r by lia.
      rewrite Nat.sub_diag. reflexivity. }
    rewrite (line_full_row _ _ row) by (rewrite ?Nat2Z.id; assumption).
    rewrite count_full_single, ?kept_rows_single in *.
    destruct (row_full row) eqn:Efull.
    + rewrite remove_row_eq.
      * assert (Hcut : take (c + length pre)
                         (replicate c empty_row ++ (pre ++ [row]) ++ kept)
                       ++ drop (S (c + length pre))
                         (replicate c empty_row ++ (pre ++ [row]) ++ kept)
                       = replicate c empty_row ++ pre ++ kept).
        { replace (replicate c empty_row ++ (pre ++ [row]) ++ kept)
            with ((replicate c empty_row ++ pre) ++ row :: kept)
            by (rewrite <- !app_assoc; reflexivity).
          replace (c + length pre)%nat
            with (length (replicate c empty_row ++ pre))
            by (rewrite length_app, length_replicate; reflexivity).
          rewrite cut_middle, <- app_assoc. reflexivity. }
        rewrite Hcut.
        change (empty_row :: replicate c empty_row ++ pre ++ kept)
          with (replicate (S c) empty_row ++ pre ++ kept).
        replace (Z.of_nat (c + length pre) + 1 - 1)
          with (Z.of_nat (S c + length pre) - 1) by lia.
        rewrite IH; try assumption.
        -- rewrite app_nil_r.
           replace (S c + count_full pre)%nat
             with (c + (count_full pre + 1))%nat by lia.
           replace (lines + 1 + Z.of_nat (count_full pre))
             with (lines + Z.of_nat (count_full pre + 1)) by lia.
           reflexivity.
        -- lia.
      * repeat (apply Forall_app; split); try assumption.
        -- apply Forall_replicate. reflexivity.
        -- constructor; [assumption|constructor].
      * rewrite !length_app, length_replicate. simpl. lia.
    + rewrite <- (app_assoc pre). simpl app.
      rewrite IH; try assumption.
      * rewrite !Nat.add_0_r, <- app_assoc. reflexivity.
      * constructor; assumption.
      * lia.
Qed.

Lemma row_full_iff (row : list Z) :
  row_full row = true <-> forall v, In v row -> v <> 0.
Proof.
  unfold row_full. rewrite forallb_forall. split; intros H v Hin.
  - specialize (H v Hin). zbool. assumption.
  - apply negb_true_iff, Z.eqb_neq. auto.
Qed.

Lemma board_get_cell_row (b : Board) (y : nat) (row : list Z) (x : Z) :
  wf_board b -> b !! y = Some row -> 0 <= x < BOARD_WIDTH ->
  board_get_cell b x (Z.of_nat y) = default 0 (row !! Z.to_nat x).
Proof.
  intros [Hlen _] Hrow Hx.
  assert (Hy : (y < length b)%nat) by (eapply lookup_lt_Some; eassumption).
  unfold board_get_cell, cells_get. rewrite Nat2Z.id, Hrow.
  rewrite !Z.geb_leb.
  destruct (Z.ltb_spec x 0), (Z.leb_spec BOARD_WIDTH x),
    (Z.ltb_spec (Z.of_nat y) 0), (Z.leb_spec BOARD_HEIGHT (Z.of_nat y));
    simpl; try reflexivity; unfold BOARD_HEIGHT in *; lia.
Qed.

(** A stored row is full exactly when [board_get_cell] finds each of its
    [BOARD_WIDTH] columns occupied. *)
Lemma row_full_columns (b : Board) (y : nat) (row : list Z) :
  wf_board b -> b !! y = Some row ->
  (row_full row = true <->
   forall x, 0 <= x < BOARD_WIDTH -> board_get_cell b x (Z.of_nat y) <> 0).
Proof.
  intros Hwf Hrow.
  assert (Hlen : row_ok row).
  { destruct Hwf as [_ Hrows]. rewrite Forall_lookup in Hrows. eauto. }
  rewrite row_full_iff. split.
  - intros Hall x Hx. rewrite (board_get_cell_row b y row) by assumption.
    destruct (lookup_lt_is_Some_2 row (Z.to_nat x)) as [v Hv].
    { rewrite Hlen. unfold BOARD_WIDTH in *. lia. }
    rewrite Hv. simpl. apply Hall.
    apply list_elem_of_In, list_elem_of_lookup. eauto.
  - intros Hall v Hin.
    apply list_elem_of_In, list_elem_of_lookup in Hin as [i Hi].
    assert (Hi' : (i < length row)%nat) by (eapply lookup_lt_Some; eassumption).
    rewrite Hlen in Hi'.
    specialize (Hall (Z.of_nat i)).
    rewrite (board_get_cell_row b y row), Nat2Z.id, Hi in Hall;
      try assumption; unfold BOARD_WIDTH in *; try lia.
    apply Hall. lia.
Qed.

Lemma wf_board_cleared (b : Board) :
  wf_board b ->
  wf_board (replicate (count_full b) empty_row ++ kept_rows b).
Proof.
  intros [Hlen Hrows]. split.
  - rewrite length_app, length_replicate, <- Hlen.
    pose proof (kept_rows_length b). lia.
  - apply Forall_app. split.
    + apply Forall_replicate. reflexivity.
    + unfold kept_rows. rewrite Forall_forall in *.
      intros row Hin. apply Hrows.
      apply list_elem_of_In. apply list_elem_of_In in Hin.
      apply List.filter_In in Hin. tauto.
Qed.

(** Where a row that is not full ends up: as many positions down as there
    are full rows below it. *)
Lemma kept_row_position (b : Board) (y : nat) (row : list Z) :
  b !! y = Some row -> row_full row = false ->
  (replicate (count_full b) empty_row ++ kept_rows b)
    !! (y + count_full (drop (S y) b))%nat = Some row.
Proof.
  intros Hrow Hnot.
  assert (Hy : (y < length b)%nat) by (eapply lookup_lt_Some; eassumption).
  assert (Hsplit : b = take y b ++ row :: drop (S y) b).
  { rewrite <- (take_drop y b) at 1. f_equal.
    apply drop_S. assumption. }
  assert (Hcount : count_full b =
            (count_full (take y b) + count_full (drop (S y) b))%nat).
  { rewrite Hsplit at 1. rewrite count_full_app.
    change (row :: drop (S y) b) with ([row] ++ drop (S y) b).
    rewrite count_full_app, count_full_single, Hnot. lia. }
  assert (Hkept : kept_rows b =
            kept_rows (take y b) ++ row :: kept_rows (drop (S y) b)).
  { rewrite Hsplit at 1. rewrite kept_rows_app.
    change (row :: drop (S y) b) with ([row] ++ drop (S y) b).
    rewrite kept_rows_app, kept_rows_single, Hnot. reflexivity. }
  pose proof (kept_rows_length (take y b)) as Htake.
  rewrite length_take in Htake.
  rewrite lookup_app_r by (rewrite length_replicate; lia).
  rewrite length_replicate, Hkept.
  rewrite lookup_app_r by lia.
  replace (y + count_full (drop (S y) b) - count_full b
           - length (kept_rows (take y b)))%nat with 0%nat by lia.
  reflexivity.
Qed.

(** With fuel for two passes over the rows the scan ends, with the count
    of the rows that were full and the other rows packed at the bottom. *)
Lemma board_clear_lines_enough_fuel (b : Board) (fuel : nat) :
  wf_board b -> (2 * Z.to_nat BOARD_HEIGHT <= fuel)%nat ->
  board_clear_lines fuel b =
    Some (Z.of_nat (count_full b),
          replicate (count_full b) empty_row ++ kept_rows b).
Proof.
  intros [Hlen Hrows] Hfuel. unfold board_clear_lines.
  pose proof (clear_lines_loop_scan b 0 [] fuel 0 Hrows (Forall_nil_2 _))
    as Hscan.
  simpl replicate in Hscan. simpl app in Hscan. rewrite !app_nil_r in Hscan.
  rewrite Hlen in Hscan. simpl Z.add in Hscan.
  pose proof (count_full_le b).
  apply Hscan. lia.
Qed.

(** More fuel never changes an answer. *)
Lemma clear_lines_loop_fuel_mono (fuel : nat) :
  forall (b : Board) (y lines : Z) (res : Z * Board) (fuel' : nat),
    clear_lines_loop fuel b y lines = Some res -> (fuel <= fuel')%nat ->
    clear_lines_loop fuel' b y lines = Some res.
Proof.
  induction fuel as [|fuel IH]; intros b y lines res fuel' Hres Hle;
    rewrite clear_lines_loop_eq in Hres |- *;
    destruct (y >=? 0); try assumption; try discriminate.
  destruct fuel' as [|fuel']; [lia|].
  destruct (line_full b y); eapply IH; try eassumption; lia.
Qed.

Lemma board_clear_lines_result (b : Board) (fuel : nat) (n : Z) (b' : Board) :
  wf_board b -> board_clear_lines fuel b = Some (n, b') ->
  n = Z.of_nat (count_full b) /\
  b' = replicate (count_full b) empty_row ++ kept_rows b.
Proof.
  intros Hwf Hres.
  pose proof (board_clear_lines_enough_fuel b
                (Nat.max fuel (2 * Z.to_nat BOARD_HEIGHT)) Hwf
                (Nat.le_max_r _ _)) as Hspec.
  unfold board_clear_lines in *.
  rewrite (clear_lines_loop_fuel_mono _ _ _ _ _ _ Hres (Nat.le_max_l _ _))
    in Hspec.
  injection Hspec as -> ->. split; reflexivity.
Qed.

(** C2: on a board with the dimensions of the C array and with enough fuel
    for the scan, [board_clear_lines] returns the number of rows that were
    full before the call and leaves that many empty rows on top of the rows
    that were not full, kept in their order: each such row has moved down by
    the number of full rows that were below it. *)
Theorem board_clear_lines_spec (b : Board) (fuel : nat) :
  wf_board b -> (2 * Z.to_nat BOARD_HEIGHT <= fuel)%nat ->
  exists b',
    board_clear_lines fuel b = Some (Z.of_nat (count_full b), b') /\
    b' = replicate (count_full b) empty_row ++ kept_rows b /\
    wf_board b' /\
    (forall y row, b !! y = Some row ->
       (row_full row = true <->
        forall x, 0 <= x < BOARD_WIDTH ->
          board_get_cell b x (Z.of_nat y) <> 0)) /\
    (forall y row, b !! y = Some row -> row_full row = false ->
       b' !! (y + count_full (drop (S y) b))%nat = Some row) /\
    (forall y, (y < count_full b)%nat -> b' !! y = Some empty_row).
Proof.
  intros Hwf Hfuel.
  exists (replicate (count_full b) empty_row ++ kept_rows b).
  split; [|split; [reflexivity|split; [apply wf_board_cleared; assumption|]]].
  - apply board_clear_lines_enough_fuel; assumption.
  - split; [|split].
    + intros y row Hrow. apply row_full_columns; assumption.
    + intros y row Hrow Hnot. apply kept_row_position; assumption.
    + intros y Hy. rewrite lookup_app_l by (rewrite length_replicate; lia).
      apply lookup_replicate_2. assumption.
Qed.

Example board_clear_lines_two_rows :
  board_clear_lines 40 two_full_rows =
    Some (2, replicate 2 empty_row
             ++ take 5 two_full_rows
             ++ take 4 (drop 6 two_full_rows)
             ++ drop 11 two_full_rows).
Proof. vm_compute. reflexivity. Qed.

Lemma board_clear_lines_spec_witness :
  wf_board two_full_rows /\
  exists b', board_clear_lines 40 two_full_rows = Some (2, b') /\
             b' !! 6%nat = two_full_rows !! 4%nat.
Proof.
  assert (Hwf : wf_board two_full_rows)
    by (split; [reflexivity|repeat constructor]).
  split; [exact Hwf|].
  destruct (board_clear_lines_spec two_full_rows 40 Hwf)
    as (b' & Hres & Heq & _); [vm_compute; lia|].
  exists b'. split; [exact Hres|]. rewrite Heq. reflexivity.
Defined.

(** ** Cell values *)

Lemma piece_get_color_range (t : PieceType) : 1 <= piece_get_color t <= 7.
Proof. destruct t; simpl; lia. Qed.

Lemma cells_in_domain_set (b : Board) (y x v : Z) :
  cells_in_domain b -> 0 <= v <= 7 -> cells_in_domain (cells_set b y x v).
Proof.
  intros Hdom Hv. unfold cells_set.
  destruct (b !! Z.to_nat y) as [row|] eqn:Hrow; [|assumption].
  apply Forall_insert; [assumption|].
  apply Forall_insert; [|assumption].
  unfold cells_in_domain in Hdom. rewrite Forall_lookup in Hdom. eauto.
Qed.

Lemma cells_in_domain_lock (blocks : PieceShape) (b : Board) (color x y : Z) :
  cells_in_domain b -> 0 <= color <= 7 ->
  cells_in_domain (lock_blocks b color x y blocks).
Proof.
  revert b. induction blocks as [|[dx dy] rest IH]; intros b Hdom Hc; simpl.
  - assumption.
  - destruct (_ && _); apply IH; try assumption.
    apply cells_in_domain_set; assumption.
Qed.

Lemma cells_in_domain_cleared (b : Board) :
  cells_in_domain b ->
  cells_in_domain (replicate (count_full b) empty_row ++ kept_rows b).
Proof.
  intros Hdom. apply Forall_app. split.
  - apply Forall_replicate. apply Forall_replicate. lia.
  - unfold cells_in_domain, kept_rows in *. rewrite Forall_forall in *.
    intros row Hin. apply Hdom.
    apply list_elem_of_In. apply list_elem_of_In in Hin.
    apply List.filter_In in Hin. tauto.
Qed.

Lemma board_reachable_inv (b : Board) :
  board_reachable b -> wf_board b /\ cells_in_domain b.
Proof.
  induction 1 as [|b t r x y _ [Hwf Hdom]|b fuel n b' _ [Hwf Hdom] Hres].
  - split; [apply wf_board_init|].
    apply Forall_replicate, Forall_replicate. lia.
  - split.
    + apply wf_lock_blocks. assumption.
    + apply cells_in_domain_lock; [assumption|].
      pose proof (piece_get_color_range t). lia.
  - destruct (board_clear_lines_result b fuel n b' Hwf Hres) as [_ ->].
    split; [apply wf_board_cleared|apply cells_in_domain_cleared]; assumption.
Qed.

Lemma cells_get_in_domain (b : Board) (y x : Z) :
  cells_in_domain b -> 0 <= cells_get b y x <= 7.
Proof.
  intros Hdom. unfold cells_get.
  destruct (b !! Z.to_nat y) as [row|] eqn:Hrow; [|lia].
  destruct (row !! Z.to_nat x) as [v|] eqn:Hv; simpl; [|lia].
  unfold cells_in_domain in Hdom. rewrite Forall_lookup in Hdom.
  specialize (Hdom _ _ Hrow). rewrite Forall_lookup in Hdom. eauto.
Qed.

(** C9: [board_get_cell] is defined at every board and every pair of integer
    coordinates; it answers 0 (empty) when x or y is out of range and the
    stored cell otherwise, and on every board the program builds that value
    is 0 or a colour 1..7. *)
Theorem board_get_cell_spec (b : Board) (x y : Z) :
  (x < 0 \/ x >= BOARD_WIDTH \/ y < 0 \/ y >= BOARD_HEIGHT ->
   board_get_cell b x y = 0) /\
  (0 <= x < BOARD_WIDTH -> 0 <= y < BOARD_HEIGHT ->
   board_get_cell b x y = cells_get b y x) /\
  (board_reachable b -> 0 <= board_get_cell b x y <= 7).
Proof.
  unfold board_get_cell. rewrite !Z.geb_leb.
  destruct (Z.ltb_spec x 0), (Z.leb_spec BOARD_WIDTH x),
    (Z.ltb_spec y 0), (Z.leb_spec BOARD_HEIGHT y); simpl;
    (split; [intros; try reflexivity; lia|]);
    (split; [intros; try reflexivity; lia|]);
    intros Hreach; try lia;
    apply cells_get_in_domain, board_reachable_inv; assumption.
Qed.

Lemma board_get_cell_spec_witness :
  board_get_cell (board_lock_piece board_init PIECE_L ROT_0 3 18) 5 18 = 7 /\
  board_get_cell (board_lock_piece board_init PIECE_L ROT_0 3 18) 10 18 = 0 /\
  0 <= board_get_cell (board_lock_piece board_init PIECE_L ROT_0 3 18) 5 18 <= 7.
Proof.
  split; [reflexivity|].
  split.
  - destruct (board_get_cell_spec
                (board_lock_piece board_init PIECE_L ROT_0 3 18) 10 18)
      as [Hout _].
    apply Hout. right; left. unfold BOARD_WIDTH. lia.
  - destruct (board_get_cell_spec
                (board_lock_piece board_init PIECE_L ROT_0 3 18) 5 18)
      as (_ & _ & Hdom).
    apply Hdom. apply reach_lock, reach_init.
Defined.

Lemma board_lock_piece_spec_witness :
  wf_board board_init /\
  board_get_cell (board_lock_piece board_init PIECE_T ROT_0 3 (-1)) 3 0 = 3 /\
  board_get_cell (board_lock_piece board_init PIECE_T ROT_0 3 (-1)) 4 (-1) = 0.
Proof.
  split; [apply wf_board_init|].
  destruct (board_lock_piece_spec board_init PIECE_T ROT_0 3 (-1) wf_board_init)
    as (_ & Hcells & _ & Habove).
  split.
  - apply (Hcells 0 1); [simpl; tauto | unfold BOARD_WIDTH; lia
                        | unfold BOARD_HEIGHT; lia].
  - apply Habove. lia.
Defined.

(** ** Pause *)

Lemma game_update_not_playing (fuel : nat) (g : Game) (dt : float) (r : nat) :
  state g <> GAME_STATE_PLAYING -> game_update fuel g dt r = Some g.
Proof.
  intros Hstate. unfold game_update.
  destruct (state g); try reflexivity. contradiction.
Qed.

(** C8: in the Paused state [game_update] returns the game it was given,
    for every [delta_time] and however often it is called; and
    [game_toggle_pause] on a paused game changes the state to Playing and
    nothing else, so both timers are as they were. *)
Theorem paused_update_is_noop (g : Game) :
  state g = GAME_STATE_PAUSED ->
  (forall fuel delta_time r, game_update fuel g delta_time r = Some g) /\
  (forall fuel calls, game_update_many fuel g calls = Some g) /\
  game_toggle_pause g = set_state g GAME_STATE_PLAYING /\
  state (game_toggle_pause g) = GAME_STATE_PLAYING /\
  gravity_timer (game_toggle_pause g) = gravity_timer g /\
  lock_delay_timer (game_toggle_pause g) = lock_delay_timer g /\
  board (game_toggle_pause g) = board g /\
  score (game_toggle_pause g) = score g /\
  level (game_toggle_pause g) = level g /\
  lines_cleared (game_toggle_pause g) = lines_cleared g.
Proof.
  intros Hpaused.
  assert (Hnot : state g <> GAME_STATE_PLAYING) by (rewrite Hpaused; discriminate).
  split; [intros; apply game_update_not_playing; assumption|].
  split.
  - intros fuel calls. induction calls as [|[dt r] rest IH]; simpl.
    + reflexivity.
    + rewrite game_update_not_playing by assumption. exact IH.
  - unfold game_toggle_pause. rewrite Hpaused. simpl. repeat split.
Qed.

Lemma paused_update_is_noop_witness :
  state paused_game = GAME_STATE_PAUSED /\
  game_update_many 0 paused_game [(0.5%float, 3%nat); (2.0%float, 4%nat)]
    = Some paused_game /\
  lock_delay_timer (game_toggle_pause paused_game) = 0.125%float.
Proof.
  split; [reflexivity|].
  destruct (paused_update_is_noop paused_game eq_refl)
    as (_ & Hmany & _ & _ & _ & Hlock & _).
  split; [apply Hmany | exact Hlock].
Defined.

(** ** Rotation *)

Lemma rotate_loop_first (g : Game) (n : nat) :
  forall i k : nat,
    (k < n)%nat ->
    (forall j, (j < k)%nat -> kick_collides g (i + j) = true) ->
    kick_collides g (i + k) = false ->
    rotate_loop g (piece_rotate_cw (current_rotation g)) i n =
      (true, rotate_commit g (piece_rotate_cw (current_rotation g))
               (fst (wall_kick (i + k))) (snd (wall_kick (i + k)))).
Proof.
  induction n as [|n IH]; intros i k Hk Hbefore Hfree; [lia|].
  simpl rotate_loop. destruct k as [|k].
  - rewrite Nat.add_0_r in *. unfold kick_collides in Hfree.
    fold WALL_KICK_OFFSETS in Hfree. fold (wall_kick i) in Hfree.
    rewrite Hfree. reflexivity.
  - pose proof (Hbefore 0%nat ltac:(lia)) as Hhere.
    rewrite Nat.add_0_r in Hhere. unfold kick_collides in Hhere.
    fold WALL_KICK_OFFSETS in Hhere. fold (wall_kick i) in Hhere.
    rewrite Hhere. simpl negb. cbv iota.
    replace (i + S k)%nat with (S i + k)%nat in * by lia.
    apply IH; [lia| |assumption].
    intros j Hj. replace (S i + j)%nat with (i + S j)%nat by lia.
    apply Hbefore. lia.
Qed.

Lemma rotate_loop_none (g : Game) (n : nat) :
  forall i : nat,
    (forall j, (j < n)%nat -> kick_collides g (i + j) = true) ->
    rotate_loop g (piece_rotate_cw (current_rotation g)) i n = (false, g).
Proof.
  induction n as [|n IH]; intros i Hall; [reflexivity|].
  simpl rotate_loop.
  pose proof (Hall 0%nat ltac:(lia)) as Hhere.
  rewrite Nat.add_0_r in Hhere. unfold kick_collides in Hhere.
  fold WALL_KICK_OFFSETS in Hhere. fold (wall_kick i) in Hhere.
  rewrite Hhere. simpl negb. cbv iota.
  apply IH. intros j Hj. replace (S i + j)%nat with (i + S j)%nat by lia.
  apply Hall. lia.
Qed.

Lemma reset_lock_if_off_ground_fields (g : Game) :
  board (reset_lock_if_off_ground g) = board g /\
  state (reset_lock_if_off_ground g) = state g /\
  current_piece (reset_lock_if_off_ground g) = current_piece g /\
  current_rotation (reset_lock_if_off_ground g) = current_rotation g /\
  piece_x (reset_lock_if_off_ground g) = piece_x g /\
  piece_y (reset_lock_if_off_ground g) = piece_y g /\
  next_piece (reset_lock_if_off_ground g) = next_piece g /\
  score (reset_lock_if_off_ground g) = score g /\
  level (reset_lock_if_off_ground g) = level g /\
  lines_cleared (reset_lock_if_off_ground g) = lines_cleared g /\
  gravity_timer (reset_lock_if_off_ground g) = gravity_timer g.
Proof.
  unfold reset_lock_if_off_ground. destruct (negb (is_grounded g));
    repeat split.
Qed.

(** C5: in the Playing state [game_rotate] takes the clockwise successor of
    the rotation and tries the offsets (0,0), (-1,0), (1,0), (0,-1), (-2,0),
    (2,0) in this order; at the first one that does not collide it answers
    true with the new rotation and the shifted x and y stored together (no
    other field but the ground flag and the lock-delay timer changes); when
    all six collide it answers false and the game is unchanged. *)
Theorem game_rotate_spec (g : Game) :
  state g = GAME_STATE_PLAYING ->
  rotation_to_int (piece_rotate_cw (current_rotation g))
    = (rotation_to_int (current_rotation g) + 1) mod 4 /\
  (forall i dx dy,
     nth_error [(0, 0); (-1, 0); (1, 0); (0, -1); (-2, 0); (2, 0)] i
       = Some (dx, dy) ->
     (forall j, (j < i)%nat -> kick_collides g j = true) ->
     kick_collides g i = false ->
     fst (game_rotate g) = true /\
     current_rotation (snd (game_rotate g))
       = piece_rotate_cw (current_rotation g) /\
     piece_x (snd (game_rotate g)) = piece_x g + dx /\
     piece_y (snd (game_rotate g)) = piece_y g + dy /\
     board (snd (game_rotate g)) = board g /\
     state (snd (game_rotate g)) = state g /\
     current_piece (snd (game_rotate g)) = current_piece g /\
     next_piece (snd (game_rotate g)) = next_piece g /\
     score (snd (game_rotate g)) = score g /\
     level (snd (game_rotate g)) = level g /\
     lines_cleared (snd (game_rotate g)) = lines_cleared g /\
     gravity_timer (snd (game_rotate g)) = gravity_timer g) /\
  ((forall i, (i < 6)%nat -> kick_collides g i = true) ->
   game_rotate g = (false, g)).
Proof.
  intros Hplaying.
  split; [destruct (current_rotation g); reflexivity|].
  unfold game_rotate. rewrite Hplaying. simpl negb. cbv iota.
  split.
  - intros i dx dy Hnth Hbefore Hfree.
    assert (Hi : (i < WALL_KICK_COUNT)%nat).
    { change WALL_KICK_COUNT with (length WALL_KICK_OFFSETS).
      apply nth_error_Some. unfold WALL_KICK_OFFSETS.
      rewrite Hnth. discriminate. }
    rewrite (rotate_loop_first g WALL_KICK_COUNT 0 i Hi Hbefore Hfree).
    simpl fst. simpl snd. unfold wall_kick, WALL_KICK_OFFSETS.
    rewrite (nth_error_nth _ _ _ Hnth). simpl fst. simpl snd.
    unfold rotate_commit.
    destruct (reset_lock_if_off_ground_fields
                (set_piece_y
                   (set_piece_x
                      (set_current_rotation g
                         (piece_rotate_cw (current_rotation g)))
                      (piece_x g + dx)) (piece_y g + dy)))
      as (-> & -> & -> & -> & -> & -> & -> & -> & -> & -> & ->).
    repeat split. simpl. exact Hplaying.
  - intros Hall. apply (rotate_loop_none g WALL_KICK_COUNT 0). exact Hall.
Qed.

Lemma game_rotate_spec_witness :
  state rotate_game = GAME_STATE_PLAYING /\
  fst (game_rotate rotate_game) = true /\
  piece_x (snd (game_rotate rotate_game)) = 7 + -1.
Proof.
  split; [reflexivity|].
  destruct (game_rotate_spec rotate_game eq_refl) as (_ & Hfirst & _).
  destruct (Hfirst 1%nat (-1) 0 eq_refl) as (Hok & _ & Hx & _).
  - intros j Hj. assert (j = 0%nat) as -> by lia. reflexivity.
  - reflexivity.
  - split; [exact Hok | exact Hx].
Defined.

(** ** Spawning *)

Lemma spawn_shape_center (t : PieceType) : In (1, 1) (piece_get_shape t ROT_0).
Proof. destruct t; simpl; tauto. Qed.

Lemma game_spawn_piece_fields (g : Game) (r : nat) :
  board (snd (game_spawn_piece g r)) = board g /\
  score (snd (game_spawn_piece g r)) = score g /\
  level (snd (game_spawn_piece g r)) = level g /\
  lines_cleared (snd (game_spawn_piece g r)) = lines_cleared g /\
  gravity_timer (snd (game_spawn_piece g r)) = gravity_timer g /\
  current_piece (snd (game_spawn_piece g r)) = next_piece g.
Proof.
  unfold game_spawn_piece. simpl.
  destruct (board_check_collision _ _ _ _ _); repeat split.
Qed.

(** C6: when the four cells of the top-centre footprint (columns 4 and 5,
    rows 0 and 1) are all occupied, [game_spawn_piece] answers false and the
    state becomes GameOver, whatever the next piece is; whenever the spawn
    position collides it does so, and when it does not collide it answers
    true and leaves the state as it was. *)
Theorem game_spawn_piece_spec (g : Game) (r : nat) :
  ((forall x y, BOARD_WIDTH / 2 - 1 <= x < BOARD_WIDTH / 2 + 1 -> 0 <= y < 2 ->
      board_get_cell (board g) x y <> 0) ->
   board_is_spawn_blocked (board g) = true /\
   fst (game_spawn_piece g r) = false /\
   state (snd (game_spawn_piece g r)) = GAME_STATE_GAME_OVER) /\
  (board_check_collision (board g) (next_piece g) ROT_0 SPAWN_X SPAWN_Y = true ->
   fst (game_spawn_piece g r) = false /\
   state (snd (game_spawn_piece g r)) = GAME_STATE_GAME_OVER) /\
  (board_check_collision (board g) (next_piece g) ROT_0 SPAWN_X SPAWN_Y = false ->
   fst (game_spawn_piece g r) = true /\
   state (snd (game_spawn_piece g r)) = state g).
Proof.
  assert (Hblocked :
    board_check_collision (board g) (next_piece g) ROT_0 SPAWN_X SPAWN_Y = true ->
    fst (game_spawn_piece g r) = false /\
    state (snd (game_spawn_piece g r)) = GAME_STATE_GAME_OVER).
  { intros Hc. unfold game_spawn_piece. simpl. rewrite Hc. split; reflexivity. }
  split; [|split; [exact Hblocked|]].
  - intros Hfoot. split.
    + pose proof (Hfoot 4 0 ltac:(vm_compute; split; congruence)
                    ltac:(lia)) as Hcell.
      unfold board_get_cell in Hcell. simpl in Hcell.
      apply Z.eqb_neq in Hcell.
      unfold board_is_spawn_blocked. simpl.
      change (Z.of_nat 0 + 0) with 0.
      change (Z.of_nat 0 + (Z.quot BOARD_WIDTH 2 - 1)) with 4.
      rewrite Hcell. reflexivity.
    + apply Hblocked. apply check_blocks_true_iff.
      exists 1, 1. split; [apply spawn_shape_center|].
      right; right; right. split; [vm_compute; split; congruence|].
      apply Hfoot; vm_compute; split; congruence.
  - intros Hfree. unfold game_spawn_piece. simpl. rewrite Hfree.
    split; reflexivity.
Qed.

Lemma game_spawn_piece_spec_witness :
  (forall x y, BOARD_WIDTH / 2 - 1 <= x < BOARD_WIDTH / 2 + 1 -> 0 <= y < 2 ->
     board_get_cell footprint_board x y <> 0) /\
  fst (game_spawn_piece (set_board (game_init 0 6) footprint_board) 2) = false /\
  fst (game_spawn_piece (game_init 0 6) 2) = true.
Proof.
  assert (Hfoot : forall x y,
            BOARD_WIDTH / 2 - 1 <= x < BOARD_WIDTH / 2 + 1 -> 0 <= y < 2 ->
            board_get_cell footprint_board x y <> 0).
  { intros x y Hx Hy. change (BOARD_WIDTH / 2 - 1) with 4 in Hx.
    change (BOARD_WIDTH / 2 + 1) with 6 in Hx.
    assert (x = 4 \/ x = 5) as [-> | ->] by lia;
      (assert (y = 0 \/ y = 1) as [-> | ->] by lia); discriminate. }
  split; [exact Hfoot|].
  split.
  - destruct (game_spawn_piece_spec
                (set_board (game_init 0 6) footprint_board) 2)
      as (Hfilled & _).
    apply (Hfilled Hfoot).
  - destruct (game_spawn_piece_spec (game_init 0 6) 2) as (_ & _ & Hfree).
    apply Hfree. reflexivity.
Defined.

(** ** Lock and clear *)

Lemma wf_locked_board (g : Game) : wf_board (board g) -> wf_board (locked_board g).
Proof. intros Hwf. apply wf_lock_blocks. assumption. Qed.

(** What [lock_and_clear] does once the line count is known. *)
Lemma lock_and_clear_unfold (fuel : nat) (g : Game) (r : nat) (lines : Z)
    (b' : Board) :
  board_clear_lines fuel (locked_board g) = Some (lines, b') ->
  exists g',
    lock_and_clear fuel g r = Some g' /\
    board g' = b' /\
    lines_cleared g' = (if lines >? 0 then lines_cleared g + lines
                        else lines_cleared g) /\
    score g' = (if lines >? 0
                then score g + LINE_CLEAR_SCORES lines * level g
                else score g) /\
    level g' = (if lines >? 0
                then 1 + Z.quot (lines_cleared g + lines) LINES_PER_LEVEL
                else level g).
Proof.
  intros Hclear. unfold lock_and_clear. simpl board.
  fold (locked_board g). rewrite Hclear.
  eexists. split; [reflexivity|].
  match goal with
  | |- context [game_spawn_piece ?g1 r] =>
      destruct (game_spawn_piece_fields g1 r) as (-> & -> & -> & -> & _)
  end.
  destruct (lines >? 0); repeat split.
Qed.

(** C3: when the lock fills [count] rows, 1 <= count <= 4, [lock_and_clear]
    adds [count] to the line total, adds [base_score count] times the level
    it found to the score, and then sets the level to one plus the line
    total divided by ten, rounded down. *)
Theorem lock_and_clear_spec (fuel : nat) (g : Game) (r : nat) (count : Z) :
  wf_board (board g) -> (2 * Z.to_nat BOARD_HEIGHT <= fuel)%nat ->
  count = Z.of_nat (count_full (locked_board g)) ->
  1 <= count <= 4 -> 0 <= lines_cleared g ->
  exists g',
    lock_and_clear fuel g r = Some g' /\
    board_clear_lines fuel (locked_board g) = Some (count, board g') /\
    lines_cleared g' = lines_cleared g + count /\
    score g' = score g + base_score count * level g /\
    level g' = 1 + (lines_cleared g + count) / 10 /\
    (count = 4 -> level g = 3 -> score g' = score g + 2400) /\
    (lines_cleared g' = 10 -> level g' = 2) /\
    (lines_cleared g' = 9 -> level g' = 1).
Proof.
  intros Hwf Hfuel Hcount Hrange Hlines.
  pose proof (board_clear_lines_enough_fuel (locked_board g) fuel
                (wf_locked_board g Hwf) Hfuel) as Hclear.
  rewrite <- Hcount in Hclear.
  destruct (lock_and_clear_unfold fuel g r _ _ Hclear)
    as (g' & Hres & Hboard & Hl & Hs & Hlv).
  replace (count >? 0) with true in *
    by (symmetry; rewrite Z.gtb_ltb; apply Z.ltb_lt; lia).
  assert (Hscore : LINE_CLEAR_SCORES count = base_score count).
  { assert (count = 1 \/ count = 2 \/ count = 3 \/ count = 4)
      as [-> | [-> | [-> | ->]]] by lia; reflexivity. }
  rewrite Hscore in Hs.
  unfold LINES_PER_LEVEL in Hlv.
  rewrite Z.quot_div_nonneg in Hlv by lia.
  exists g'. split; [exact Hres|].
  split; [rewrite Hboard; exact Hclear|].
  split; [exact Hl|]. split; [exact Hs|]. split; [exact Hlv|].
  split; [|split].
  - intros -> Hl3. rewrite Hs, Hl3. reflexivity.
  - intros H10. rewrite Hlv, <- Hl, H10. reflexivity.
  - intros H9. rewrite Hlv, <- Hl, H9. reflexivity.
Qed.

Lemma lock_and_clear_spec_witness :
  wf_board (board tetris_game) /\
  exists g', lock_and_clear 40 tetris_game 1 = Some g' /\
             score g' = score tetris_game + 2400 /\
             lines_cleared g' = 24 /\ level g' = 3.
Proof.
  assert (Hwf : wf_board (board tetris_game))
    by (split; [reflexivity|repeat constructor]).
  split; [exact Hwf|].
  destruct (lock_and_clear_spec 40 tetris_game 1 4 Hwf)
    as (g' & Hres & _ & Hl & _ & Hlv & Hs & _);
    [vm_compute; lia | reflexivity | lia | vm_compute; congruence |].
  exists g'. split; [exact Hres|].
  split; [apply Hs; reflexivity|]. split; [exact Hl | exact Hlv].
Defined.

(** ** Hard drop *)

Lemma shape_offsets_range (t : PieceType) (r : RotationState) (dx dy : Z) :
  In (dx, dy) (piece_get_shape t r) -> 0 <= dx <= 3 /\ 0 <= dy <= 3.
Proof.
  destruct t, r; simpl; intros H;
    repeat (destruct H as [H | H]; [injection H as <- <-; lia|]);
    contradiction.
Qed.

Lemma collision_at_floor (b : Board) (t : PieceType) (r : RotationState)
    (x y dx dy : Z) :
  In (dx, dy) (piece_get_shape t r) -> y + dy >= BOARD_HEIGHT ->
  board_check_collision b t r x y = true.
Proof.
  intros Hin Hfloor. apply check_blocks_true_iff.
  exists dx, dy. split; [assumption|]. right; right; left. assumption.
Qed.

Lemma no_collision_above_floor (b : Board) (t : PieceType)
    (r : RotationState) (x y : Z) :
  board_check_collision b t r x y = false -> y < BOARD_HEIGHT.
Proof.
  intros Hfree. destruct (Z.lt_ge_cases y BOARD_HEIGHT) as [|Hge]; [assumption|].
  assert (Hcell : exists dx dy, In (dx, dy) (piece_get_shape t r)).
  { destruct t, r; simpl; eauto. }
  destruct Hcell as (dx & dy & Hin).
  pose proof (shape_offsets_range t r dx dy Hin) as [_ Hdy].
  rewrite (collision_at_floor b t r x y dx dy Hin) in Hfree by lia.
  discriminate.
Qed.

Lemma drop_loop_eq (fuel : nat) (g : Game) (d : Z) :
  drop_loop fuel g d =
    if negb (is_grounded g) then
      match fuel with
      | O => None
      | S fuel' => drop_loop fuel' (set_piece_y g (piece_y g + 1)) (d + 1)
      end
    else Some (d, g).
Proof. destruct fuel; reflexivity. Qed.

(** The descent ends: it takes at most as many steps as there are rows
    between the piece and the last row. *)
Lemma drop_loop_terminates (fuel : nat) :
  forall (g : Game) (d : Z),
    (Z.to_nat (BOARD_HEIGHT - 1 - piece_y g) <= fuel)%nat ->
    exists (n : nat) (g' : Game),
      drop_loop fuel g d = Some (d + Z.of_nat n, g') /\
      same_but_piece_y g g' /\
      piece_y g' = piece_y g + Z.of_nat n /\
      Z.of_nat n <= Z.max 0 (BOARD_HEIGHT - 1 - piece_y g) /\
      is_grounded g' = true.
Proof.
  induction fuel as [|fuel IH]; intros g d Hfuel; rewrite drop_loop_eq;
    destruct (is_grounded g) eqn:Hground; simpl negb; cbv iota.
  - exists 0%nat, g. rewrite !Z.add_0_r.
    repeat split; try assumption; lia.
  - apply no_collision_above_floor in Hground. lia.
  - exists 0%nat, g. rewrite !Z.add_0_r.
    repeat split; try assumption; lia.
  - pose proof (no_collision_above_floor _ _ _ _ _ Hground) as Hy.
    destruct (IH (set_piece_y g (piece_y g + 1)) (d + 1))
      as (n & g' & Hres & Hsame & Hpy & Hbound & Hend).
    { simpl. lia. }
    exists (S n), g'. simpl in Hpy, Hbound.
    split; [rewrite Hres; f_equal; f_equal; lia|].
    split; [exact Hsame|].
    split; [lia|]. split; [lia|exact Hend].
Qed.

Lemma lock_and_clear_total (fuel : nat) (g : Game) (r : nat) :
  wf_board (board g) -> (2 * Z.to_nat BOARD_HEIGHT <= fuel)%nat ->
  exists g', lock_and_clear fuel g r = Some g' /\ wf_board (board g').
Proof.
  intros Hwf Hfuel.
  pose proof (board_clear_lines_enough_fuel (locked_board g) fuel
                (wf_locked_board g Hwf) Hfuel) as Hclear.
  destruct (lock_and_clear_unfold fuel g r _ _ Hclear)
    as (g' & Hres & Hboard & _).
  exists g'. split; [exact Hres|].
  rewrite Hboard. apply wf_board_cleared, wf_locked_board. assumption.
Qed.

Lemma game_hard_drop_total (fuel : nat) (g : Game) (r : nat) :
  wf_board (board g) ->
  (Z.to_nat (BOARD_HEIGHT - piece_y g) + 2 * Z.to_nat BOARD_HEIGHT <= fuel)%nat ->
  exists g', game_hard_drop fuel g r = Some g' /\ wf_board (board g').
Proof.
  intros Hwf Hfuel. unfold game_hard_drop.
  destruct (negb (GameState_eqb (state g) GAME_STATE_PLAYING)).
  - exists g. split; [reflexivity|assumption].
  - destruct (drop_loop_terminates fuel g 0) as (n & g1 & -> & Hsame & _);
      [lia|].
    destruct Hsame as (Hboard & _).
    apply lock_and_clear_total; [simpl; rewrite Hboard; assumption|lia].
Qed.

(** C10: [game_hard_drop] returns in every Playing state.  A position with a
    cell of the piece at or below row [BOARD_HEIGHT] collides; an iteration
    of the descent moves the piece down one row; so the descent makes at
    most [BOARD_HEIGHT - 1 - piece_y] iterations (none if that is negative)
    and the lock that follows ends too. *)
Theorem game_hard_drop_terminates (g : Game) (r : nat) :
  state g = GAME_STATE_PLAYING -> wf_board (board g) ->
  (forall b t rot x y dx dy,
     In (dx, dy) (piece_get_shape t rot) -> y + dy >= BOARD_HEIGHT ->
     board_check_collision b t rot x y = true) /\
  (forall fuel d,
     is_grounded g = false ->
     drop_loop (S fuel) g d =
       drop_loop fuel (set_piece_y g (piece_y g + 1)) (d + 1)) /\
  (forall fuel,
     (Z.to_nat (BOARD_HEIGHT - piece_y g) + 2 * Z.to_nat BOARD_HEIGHT
      <= fuel)%nat ->
     (exists n g1,
        drop_loop fuel g 0 = Some (Z.of_nat n, g1) /\
        piece_y g1 = piece_y g + Z.of_nat n /\
        Z.of_nat n <= Z.max 0 (BOARD_HEIGHT - 1 - piece_y g)) /\
     exists g', game_hard_drop fuel g r = Some g').
Proof.
  intros Hplaying Hwf.
  split; [intros; eapply collision_at_floor; eassumption|].
  split.
  - intros fuel d Hfree. rewrite drop_loop_eq, Hfree. reflexivity.
  - intros fuel Hfuel. split.
    + destruct (drop_loop_terminates fuel g 0)
        as (n & g1 & Hres & _ & Hpy & Hbound & _); [lia|].
      exists n, g1. rewrite Z.add_0_l in Hres. auto.
    + destruct (game_hard_drop_total fuel g r Hwf Hfuel) as (g' & Hres & _).
      exists g'. exact Hres.
Qed.

Lemma game_hard_drop_terminates_witness :
  state high_game = GAME_STATE_PLAYING /\ wf_board (board high_game) /\
  exists g', game_hard_drop 100 high_game 4 = Some g'.
Proof.
  split; [reflexivity|]. split; [apply wf_board_init|].
  destruct (game_hard_drop_terminates high_game 4 eq_refl wf_board_init)
    as (_ & _ & Hend).
  destruct (Hend 100%nat) as [_ Hres]; [vm_compute; lia|].
  exact Hres.
Defined.

(** ** The level counter *)

Lemma level_step_same (g g' : Game) :
  level g' = level g -> lines_cleared g' = lines_cleared g -> level_step g g'.
Proof. intros; left; split; assumption. Qed.

Lemma level_step_from (g0 g g' : Game) :
  level g = level g0 -> lines_cleared g = lines_cleared g0 ->
  level_step g g' -> level_step g0 g'.
Proof. unfold level_step. intros -> ->. tauto. Qed.

Lemma clear_lines_loop_count_ge (fuel : nat) :
  forall (b : Board) (y lines n : Z) (b' : Board),
    clear_lines_loop fuel b y lines = Some (n, b') -> lines <= n.
Proof.
  induction fuel as [|fuel IH]; intros b y lines n b' Hres;
    rewrite clear_lines_loop_eq in Hres; destruct (y >=? 0);
    try discriminate; try (injection Hres as <- _; lia).
  destruct (line_full b y); apply IH in Hres; lia.
Qed.

Lemma lock_and_clear_level_step (fuel : nat) (g : Game) (r : nat) (g' : Game) :
  lock_and_clear fuel g r = Some g' -> level_step g g'.
Proof.
  intros Hres.
  destruct (board_clear_lines fuel (locked_board g)) as [[lines b']|] eqn:Hclear.
  - destruct (lock_and_clear_unfold fuel g r lines b' Hclear)
      as (g1 & Hres1 & _ & Hl & _ & Hlv).
    rewrite Hres in Hres1. injection Hres1 as <-.
    apply clear_lines_loop_count_ge in Hclear.
    destruct (lines >? 0) eqn:Epos.
    + right. rewrite Hl, Hlv. zbool. split; [lia|reflexivity].
    + left. split; assumption.
  - unfold lock_and_clear in Hres. simpl board in Hres.
    fold (locked_board g) in Hres. rewrite Hclear in Hres. discriminate.
Qed.

Lemma reset_lock_level (g : Game) :
  level (reset_lock_if_off_ground g) = level g /\
  lines_cleared (reset_lock_if_off_ground g) = lines_cleared g.
Proof.
  destruct (reset_lock_if_off_ground_fields g)
    as (_ & _ & _ & _ & _ & _ & _ & _ & -> & -> & _).
  split; reflexivity.
Qed.

Ltac through_reset_lock :=
  match goal with
  | |- context [reset_lock_if_off_ground ?g2] =>
      let H1 := fresh in
      let H2 := fresh in
      destruct (reset_lock_level g2) as [H1 H2]; rewrite ?H1, ?H2
  end.

Lemma rotate_loop_level (g : Game) (nr : RotationState) (n : nat) :
  forall i, level (snd (rotate_loop g nr i n)) = level g /\
            lines_cleared (snd (rotate_loop g nr i n)) = lines_cleared g.
Proof.
  induction n as [|n IH]; intros i; simpl; [split; reflexivity|].
  destruct (negb _); [|apply IH].
  simpl snd. through_reset_lock. split; reflexivity.
Qed.

Lemma game_update_level_step (fuel : nat) (g : Game) (dt : float) (r : nat)
    (g' : Game) :
  game_update fuel g dt r = Some g' -> level_step g g'.
Proof.
  unfold game_update.
  destruct (negb (GameState_eqb (state g) GAME_STATE_PLAYING)).
  { intros [= <-]. apply level_step_same; reflexivity. }
  match goal with
  | |- context [is_on_ground ?g2 || is_grounded ?g2] =>
      assert (Hkeep : level g2 = level g /\ lines_cleared g2 = lines_cleared g)
        by (repeat match goal with
                   | |- context [if ?c then _ else _] => destruct c
                   end; split; reflexivity);
      generalize dependent g2
  end.
  intros g2 [Hlv Hl].
  destruct (is_on_ground g2 || is_grounded g2).
  - destruct (PrimFloat.leb _ _).
    + intros Hres. apply lock_and_clear_level_step in Hres.
      eapply level_step_from; [| |exact Hres]; assumption.
    + intros [= <-]. apply level_step_same; assumption.
  - intros [= <-]. apply level_step_same; assumption.
Qed.

Lemma game_hard_drop_level_step (fuel : nat) (g : Game) (r : nat) (g' : Game) :
  game_hard_drop fuel g r = Some g' -> level_step g g'.
Proof.
  unfold game_hard_drop.
  destruct (negb (GameState_eqb (state g) GAME_STATE_PLAYING)).
  { intros [= <-]. apply level_step_same; reflexivity. }
  destruct (drop_loop fuel g 0) as [[d g1]|] eqn:Hdrop; [|discriminate].
  assert (Hkeep : level g1 = level g /\ lines_cleared g1 = lines_cleared g).
  { clear -Hdrop. revert g Hdrop. generalize 0.
    induction fuel as [|fuel IH]; intros d0 g Hdrop;
      rewrite drop_loop_eq in Hdrop; destruct (negb (is_grounded g));
      try discriminate; try (injection Hdrop as _ <-; split; reflexivity).
    apply IH in Hdrop. exact Hdrop. }
  destruct Hkeep as [Hlv Hl].
  intros Hres. apply lock_and_clear_level_step in Hres.
  eapply level_step_from; [| |exact Hres]; assumption.
Qed.

Lemma apply_action_level_step (fuel : nat) (g : Game) (a : Action) (g' : Game) :
  apply_action fuel g a = Some g' -> level_step g g'.
Proof.
  destruct a; simpl.
  - intros [= <-]. unfold game_move_left.
    repeat (destruct (negb _)); simpl snd;
      apply level_step_same; try through_reset_lock; reflexivity.
  - intros [= <-]. unfold game_move_right.
    repeat (destruct (negb _)); simpl snd;
      apply level_step_same; try through_reset_lock; reflexivity.
  - intros [= <-]. unfold game_move_down.
    repeat (destruct (negb _)); apply level_step_same; reflexivity.
  - intros [= <-]. unfold game_rotate.
    destruct (negb _); [apply level_step_same; reflexivity|].
    apply level_step_same; apply rotate_loop_level.
  - apply game_hard_drop_level_step.
  - intros [= <-]. unfold game_toggle_pause.
    repeat (destruct (GameState_eqb _ _)); apply level_step_same; reflexivity.
  - apply game_update_level_step.
  - intros [= <-]. destruct (game_spawn_piece_fields g r)
      as (_ & _ & Hlv & Hl & _).
    apply level_step_same; assumption.
Qed.

Lemma level_step_counters_ok (g g' : Game) :
  level_step g g' -> counters_ok g -> counters_ok g'.
Proof.
  unfold level_step, counters_ok, LINES_PER_LEVEL.
  intros [[-> ->] | [Hl ->]] [H0 H1]; [split; assumption|].
  split; [lia|].
  pose proof (Z.quot_pos (lines_cleared g') 10). lia.
Qed.

Lemma run_counters_ok (fuel : nat) (actions : list Action) :
  forall g g', run fuel g actions = Some g' -> counters_ok g ->
               counters_ok g' /\ lines_cleared g <= lines_cleared g'.
Proof.
  induction actions as [|a rest IH]; intros g g' Hrun Hok; simpl in Hrun.
  - injection Hrun as <-. split; [assumption|lia].
  - destruct (apply_action fuel g a) as [g1|] eqn:Hstep; [|discriminate].
    apply apply_action_level_step in Hstep.
    destruct (IH g1 g' Hrun (level_step_counters_ok g g1 Hstep Hok)) as [Hok' Hle].
    split; [assumption|].
    destruct Hstep as [[_ Heq] | [Hlt _]]; lia.
Qed.

Lemma game_update_total (fuel : nat) (g : Game) (dt : float) (r : nat) :
  wf_board (board g) -> (2 * Z.to_nat BOARD_HEIGHT <= fuel)%nat ->
  exists g', game_update fuel g dt r = Some g' /\ wf_board (board g').
Proof.
  intros Hwf Hfuel. unfold game_update.
  destruct (negb (GameState_eqb (state g) GAME_STATE_PLAYING)).
  { exists g. split; [reflexivity|assumption]. }
  match goal with
  | |- context [is_on_ground ?g2 || is_grounded ?g2] =>
      assert (Hkeep : board g2 = board g)
        by (repeat match goal with
                   | |- context [if ?c then _ else _] => destruct c
                   end; reflexivity);
      generalize dependent g2
  end.
  intros g2 Hboard.
  destruct (is_on_ground g2 || is_grounded g2).
  - destruct (PrimFloat.leb _ _).
    + apply lock_and_clear_total; [simpl; rewrite Hboard; assumption|lia].
    + eexists. split; [reflexivity|]. simpl. rewrite Hboard. assumption.
  - eexists. split; [reflexivity|]. simpl. rewrite Hboard. assumption.
Qed.

Lemma rotate_loop_board (g : Game) (nr : RotationState) (n : nat) :
  forall i, board (snd (rotate_loop g nr i n)) = board g.
Proof.
  induction n as [|n IH]; intros i; simpl; [reflexivity|].
  destruct (negb _); [|apply IH].
  simpl snd.
  match goal with
  | |- context [reset_lock_if_off_ground ?g2] =>
      destruct (reset_lock_if_off_ground_fields g2) as (-> & _)
  end.
  reflexivity.
Qed.

(** With fuel for the descent and the row scan every call returns. *)
Lemma apply_action_total (fuel : nat) (g : Game) (a : Action) :
  wf_board (board g) ->
  (Z.to_nat (BOARD_HEIGHT - piece_y g) + 2 * Z.to_nat BOARD_HEIGHT <= fuel)%nat ->
  exists g', apply_action fuel g a = Some g' /\ wf_board (board g').
Proof.
  intros Hwf Hfuel.
  destruct a; simpl;
    try (eexists; split; [reflexivity|]).
  - unfold game_move_left. repeat (destruct (negb _)); simpl snd;
      try match goal with
        | |- context [reset_lock_if_off_ground ?g2] =>
            destruct (reset_lock_if_off_ground_fields g2) as (-> & _)
        end; assumption.
  - unfold game_move_right. repeat (destruct (negb _)); simpl snd;
      try match goal with
        | |- context [reset_lock_if_off_ground ?g2] =>
            destruct (reset_lock_if_off_ground_fields g2) as (-> & _)
        end; assumption.
  - unfold game_move_down. repeat (destruct (negb _)); assumption.
  - unfold game_rotate. destruct (negb _); [assumption|].
    rewrite rotate_loop_board. assumption.
  - apply game_hard_drop_total; assumption.
  - unfold game_toggle_pause.
    repeat (destruct (GameState_eqb _ _)); assumption.
  - apply game_update_total; [assumption|lia].
  - destruct (game_spawn_piece_fields g r) as (-> & _). assumption.
Qed.

Lemma game_set_starting_level_counters (g : Game) (l : Z) :
  1 <= level (game_set_starting_level g l) <= 10 /\
  lines_cleared (game_set_starting_level g l) = lines_cleared g.
Proof.
  unfold game_set_starting_level. simpl.
  destruct (board_check_collision _ _ _ _ _); simpl;
    (split; [|reflexivity]);
    destruct (Z.ltb_spec l 1); try lia;
    rewrite Z.gtb_ltb; destruct (Z.ltb_spec 10 l); lia.
Qed.

(** Whatever the level was, a [lock_and_clear] that clears a line leaves the
    level at one plus the new line total divided by ten. *)
Lemma lock_and_clear_recomputes_level (fuel : nat) (g : Game) (r : nat)
    (g' : Game) :
  lock_and_clear fuel g r = Some g' ->
  lines_cleared g < lines_cleared g' ->
  level g' = 1 + Z.quot (lines_cleared g') LINES_PER_LEVEL.
Proof.
  intros Hres Hlt.
  destruct (lock_and_clear_level_step fuel g r g' Hres) as [[_ Heq] | [_ Hlv]];
    [lia|exact Hlv].
Qed.

(** C4: the code lets the level fall.  [lock_and_clear] recomputes the
    level from the line total alone, so the level chosen at the start is
    lost at the first cleared line: in a game of O pieces started at any
    level [l] from 2 to 10, the level is [l] with no line cleared before the
    hard drop that completes the first two rows, and 1 after it.  The same
    formula has no upper bound: a game started at level 1 is at level 11
    with its hundredth line. *)
Theorem level_falls_at_first_clear :
  (forall fuel g r g',
     lock_and_clear fuel g r = Some g' ->
     lines_cleared g < lines_cleared g' ->
     level g' = 1 + Z.quot (lines_cleared g') LINES_PER_LEVEL) /\
  (forall l, 2 <= l <= 10 ->
     option_map (fun g => (lines_cleared g, level g))
       (run 64 (o_piece_game l) (removelast o_piece_round))
       = Some (0, l) /\
     option_map (fun g => (lines_cleared g, level g))
       (run 64 (o_piece_game l) o_piece_round)
       = Some (2, 1)) /\
  option_map (fun g => (lines_cleared g, level g))
    (run 64 (o_piece_game 1) (concat (replicate 50 o_piece_round)))
    = Some (100, 11).
Proof.
  split; [exact lock_and_clear_recomputes_level|].
  split; [|vm_compute; reflexivity].
  intros l Hl.
  assert (l = 2 \/ l = 3 \/ l = 4 \/ l = 5 \/ l = 6 \/ l = 7 \/ l = 8 \/
          l = 9 \/ l = 10)
    as [-> | [-> | [-> | [-> | [-> | [-> | [-> | [-> | ->]]]]]]]] by lia;
    vm_compute; split; reflexivity.
Qed.

Lemma level_falls_at_first_clear_witness :
  2 <= 5 <= 10 /\
  option_map (fun g => (lines_cleared g, level g))
    (run 64 (o_piece_game 5) (removelast o_piece_round)) = Some (0, 5) /\
  option_map (fun g => (lines_cleared g, level g))
    (run 64 (o_piece_game 5) o_piece_round) = Some (2, 1).
Proof.
  split; [lia|].
  destruct level_falls_at_first_clear as (_ & Hfall & _).
  apply (Hfall 5). lia.
Defined.
